(** * A shallow embedding of rs-gh-app (src/src/github.rs, src/src/app.rs,
    src/src/main.rs) and the properties of its installation/update engine.

    Modelling conventions.
    - Rust [String]/[&str] are [string] (lists of ASCII characters); the
      Unicode-aware parts of the source ([to_lowercase], the regex classes
      [\d] and [\s]) are modelled on their ASCII behaviour.
    - Every fallible function returns a [res]: [Ok], [Err] (an [anyhow]
      error), or [Panic] (an [unwrap] on [None]).
    - The network is an oracle [Net] from requests to responses, [None]
      standing for a transport failure of [send()]. Effects that matter to a
      property (HTTP requests, file-system operations, shell commands) are
      recorded in a trace. *)

From Stdlib Require Import String Ascii ZArith Lia Bool.
From Stdlib Require Import Numbers.DecimalString.
From stdpp Require Import base gmap strings list.

Set Warnings "-register-all".

(* ------------------------------------------------------------------ *)
(** ** Common infrastructure *)

(** [anyhow::Error]: either a message built by [anyhow!] or an error
    propagated by [?] from a library (reqwest, serde, io) whose text we do
    not model. *)
Inductive error :=
| ErrMsg (msg : string)
| ErrLib (origin : string).

Inductive res (A : Type) :=
| Ok (a : A)
| Err (e : error)
| Panic (msg : string).
Arguments Ok {A} a.
Arguments Err {A} e.
Arguments Panic {A} msg.

Definition is_ok {A} (r : res A) : bool :=
  match r with Ok _ => true | _ => false end.

(** Decimal rendering of an integer, as [format!("{}", n)]. *)
Definition z2s (x : Z) : string := NilEmpty.string_of_int (Z.to_int x).

(** [str::starts_with] and [str::contains] with a string needle. *)
Fixpoint starts_with (p s : string) : bool :=
  match p, s with
  | EmptyString, _ => true
  | String c p', String d s' => Ascii.eqb c d && starts_with p' s'
  | _, _ => false
  end.

Fixpoint contains (s p : string) : bool :=
  starts_with p s ||
  match s with
  | EmptyString => false
  | String _ s' => contains s' p
  end.

(** [str::to_lowercase], on ASCII letters. *)
Definition ascii_lower (c : ascii) : ascii :=
  let n := nat_of_ascii c in
  if (65 <=? n)%nat && (n <=? 90)%nat then ascii_of_nat (n + 32) else c.

Fixpoint to_lowercase (s : string) : string :=
  match s with
  | EmptyString => EmptyString
  | String c s' => String (ascii_lower c) (to_lowercase s')
  end.

(** [str::split_once(c)]: the text before and after the first [c]. *)
Fixpoint split_once (c : ascii) (s : string) : option (string * string) :=
  match s with
  | EmptyString => None
  | String d s' =>
      if Ascii.eqb c d then Some (EmptyString, s')
      else match split_once c s' with
           | Some (a, b) => Some (String d a, b)
           | None => None
           end
  end.

(** A [serde_json::Value]. *)
Inductive json :=
| JNull
| JBool (b : bool)
| JNum (n : Z)
| JStr (s : string)
| JArr (l : list json)
| JObj (fields : list (string * json)).

(** [value["key"]]: the field of an object, [Null] when absent or when the
    value is not an object. *)
Fixpoint assoc_field (k : string) (fs : list (string * json)) : json :=
  match fs with
  | [] => JNull
  | (k', v) :: fs' => if String.eqb k k' then v else assoc_field k fs'
  end.

Definition jindex (j : json) (k : string) : json :=
  match j with JObj fs => assoc_field k fs | _ => JNull end.

(** [Value::as_u64] and [Value::as_str]. *)
Definition as_u64 (j : json) : option Z :=
  match j with
  | JNum n => if (0 <=? n)%Z && (n <? 2 ^ 64)%Z then Some n else None
  | _ => None
  end.

Definition as_str (j : json) : option string :=
  match j with JStr s => Some s | _ => None end.

(** An HTTP request as built with [reqwest::Client::get(..).header(..)]. *)
Record Request := mkRequest {
  req_url : string;
  req_headers : list (string * string)
}.

(** An HTTP response: the status code, the body text ([None] when reading it
    fails) and the value the body parses to as JSON ([None] when it is not
    JSON). *)
Record Response := mkResponse {
  status : Z;
  body_text : option string;
  body_json : option json
}.

Definition is_success (code : Z) : bool := (200 <=? code)%Z && (code <? 300)%Z.

(** The network: [None] is a failure of [send()]. *)
Definition Net := Request -> option Response.

(** The events a run produces, in order. *)
Inductive event :=
| HttpGet (url : string)
| Println (line : string)
| Shell (cmd : string)
| FsCopy (src dst : string)
| FsRename (src dst : string)
| FsRemove (p : string)
| FsMetadata (p : string)
| FsSetMode (p : string) (mode : Z).

(** A writer-and-error monad: the trace of events and the outcome. *)
Definition M (A : Type) : Type := list event * res A.

Global Instance M_ret : MRet M := λ A a, ([], Ok a).
Global Instance M_bind : MBind M := λ A B f m,
  match m with
  | (t1, Ok a) => let '(t2, r) := f a in (t1 ++ t2, r)
  | (t1, Err e) => (t1, Err e)
  | (t1, Panic s) => (t1, Panic s)
  end.

Definition throw {A} (e : error) : M A := ([], Err e).
Definition emit (ev : event) : M unit := ([ev], Ok tt).
Definition lift {A} (r : res A) : M A := ([], r).

(** [client.get(url)...send().await?]: records the request and returns the
    response, or fails with reqwest's transport error. *)
Definition send (net : Net) (rq : Request) : M Response :=
  emit (HttpGet (req_url rq)) ;;
  match net rq with
  | Some r => mret r
  | None => throw (ErrLib "reqwest::send")
  end.

(** [resp.text().await?] *)
Definition text (r : Response) : M string :=
  match body_text r with
  | Some t => mret t
  | None => throw (ErrLib "reqwest::text")
  end.

(* ------------------------------------------------------------------ *)
(** ** src/src/github.rs *)
Module Github.

Record Asset := mkAsset {
  id : Z;
  name : string;
  label : option string;
  content_type : option string;
  size : Z;
  download_count : Z;
  browser_download_url : option string
}.

Record Release := mkRelease {
  tag_name : string;
  html_url : string;
  assets : list Asset
}.

(** [#[derive(Deserialize)]] for [Asset] and [Release]: a required field must
    be present with the right type, an [Option] field may be missing or
    [null]. *)
Definition de_u64 (j : json) : option Z := as_u64 j.
Definition de_string (j : json) : option string := as_str j.
Definition de_opt_string (j : json) : option (option string) :=
  match j with
  | JNull => Some None
  | JStr s => Some (Some s)
  | _ => None
  end.

Definition de_asset (j : json) : option Asset :=
  match j with
  | JObj _ =>
      i ← de_u64 (jindex j "id");
      n ← de_string (jindex j "name");
      l ← de_opt_string (jindex j "label");
      ct ← de_opt_string (jindex j "content_type");
      sz ← de_u64 (jindex j "size");
      dc ← de_u64 (jindex j "download_count");
      u ← de_opt_string (jindex j "browser_download_url");
      Some (mkAsset i n l ct sz dc u)
  | _ => None
  end.

Fixpoint de_assets (l : list json) : option (list Asset) :=
  match l with
  | [] => Some []
  | j :: l' => a ← de_asset j; r ← de_assets l'; Some (a :: r)
  end.

Definition de_release (j : json) : option Release :=
  match j with
  | JObj _ =>
      t ← de_string (jindex j "tag_name");
      h ← de_string (jindex j "html_url");
      a ← match jindex j "assets" with JArr l => de_assets l | _ => None end;
      Some (mkRelease t h a)
  | _ => None
  end.

(** [resp.json::<Release>().await?] *)
Definition json_release (r : Response) : M Release :=
  match body_text r, body_json r with
  | Some _, Some j =>
      match de_release j with
      | Some rel => mret rel
      | None => throw (ErrLib "serde_json::from_str::<Release>")
      end
  | _, _ => throw (ErrLib "reqwest::json")
  end.

Definition no_release_msg : string := "No release found".

Definition api_error_msg (code : Z) (txt : string) : string :=
  ("GitHub API returned error " ++ z2s code ++ ": " ++ txt)%string.

(** [fetch_latest_release(repo, token)] *)
Definition fetch_latest_release (net : Net) (repo : string) (token : option string)
    : M Release :=
  (* let mut parts = repo.splitn(2, '/'); owner = next()?; name = next()? *)
  let parts := match split_once "/"%char repo with
               | Some (o, n) => (o, Some n)
               | None => (repo, None)
               end in
  let owner := fst parts in
  match snd parts with
  | None => throw (ErrMsg "invalid repo format")
  | Some name =>
      let url := ("https://api.github.com/repos/" ++ owner ++ "/" ++ name
                  ++ "/releases/latest")%string in
      let headers := [("user-agent", "gh_release_assets");
                      ("accept", "application/vnd.github+json")]
                     ++ match token with
                        | Some t => [("authorization", "Bearer " ++ t)%string]
                        | None => []
                        end in
      resp ← send net (mkRequest url headers);
      if Z.eqb (status resp) 200 then json_release resp
      else if Z.eqb (status resp) 404 then throw (ErrMsg no_release_msg)
      else
        let txt := match body_text resp with Some t => t | None => EmptyString end in
        throw (ErrMsg (api_error_msg (status resp) txt))
  end.

(** [Release::fetch_latest(repo, token)] *)
Definition fetch_latest (net : Net) (repo : string) (token : option string)
    : list event * Release :=
  let '(tr, r) := fetch_latest_release net repo token in
  (tr, match r with
       | Ok release => mkRelease (tag_name release) (html_url release) (assets release)
       | _ => mkRelease EmptyString EmptyString []
       end).

Record Platform := mkPlatform { os : string; arch : string }.

Record PlatformMatcher := mkPlatformMatcher {
  arch_aliases : gmap string (list string);
  os_aliases : gmap string (list string)
}.

(** [impl Default for PlatformMatcher] *)
Definition default_matcher : PlatformMatcher :=
  let arch_aliases : gmap string (list string) :=
    <["arm" := ["arm"; "armv6"; "armv7"]]>
      (<["x86_64" := ["x86_64"; "amd64"]]>
        (<["aarch64" := ["arm64"; "aarch64"]]> ∅)) in
  let os_aliases : gmap string (list string) :=
    <["windows" := ["windows"; "win32"; "win"]]>
      (<["linux" := ["linux"]]>
        (<["macos" := ["macos"; "darwin"; "osx"]]> ∅)) in
  mkPlatformMatcher arch_aliases os_aliases.

(** [asset_matcher(asset_name, matcher, current_platform)]; [current] is
    [Platform::current()], used when no platform is given. The [for] loops
    return [Ok] at the first hit, which [existsb] expresses. *)
Definition matcher_or_default (matcher : option PlatformMatcher) : PlatformMatcher :=
  match matcher with Some m => m | None => default_matcher end.

Definition platform_or (current : Platform) (current_platform : option Platform) : Platform :=
  match current_platform with Some p => p | None => current end.

Definition asset_matcher (current : Platform) (asset_name : string)
    (matcher : option PlatformMatcher) (current_platform : option Platform) : res unit :=
  let matcher := matcher_or_default matcher in
  let p := platform_or current current_platform in
  let os_al := os_aliases matcher !! os p in
  let arch_al := arch_aliases matcher !! arch p in
  let name := to_lowercase asset_name in
  if contains name (os p) && contains name (arch p) then Ok tt
  else
    let found :=
      match os_al, arch_al with
      | Some oas, Some aas =>
          existsb (fun oa => existsb (fun aa => contains name oa && contains name aa) aas) oas
      | Some oas, None => existsb (fun oa => contains name oa) oas
      | None, Some aas => existsb (fun aa => contains name aa) aas
      | None, None => false
      end in
    if found then Ok tt else Err (ErrMsg "No match found").

(** [find_platform_assets(assets, matcher, current_platform)] *)
Definition find_platform_assets (current : Platform) (assets : list Asset)
    (matcher : option PlatformMatcher) (current_platform : option Platform)
    : res (list Asset) :=
  let matcher := matcher_or_default matcher in
  let p := platform_or current current_platform in
  Ok (filter (fun a => is_ok (asset_matcher current (name a) (Some matcher) (Some p)))
             assets).

End Github.

(* ------------------------------------------------------------------ *)
(** ** The [regex] crate, for the patterns the program uses

    A backtracking matcher with the crate's leftmost-first semantics: the
    match found is the one at the leftmost start position, and at that
    position the one a backtracking engine reaches first (greedy
    repetitions try the longest run first). Only capture group 1 is kept,
    as the program only reads that one. *)
Module Regex.

Inductive re :=
| Lit (c : ascii)
| Digits (lo hi : nat)    (* \d{lo,hi} *)
| Spaces1                 (* \s+ *)
| Seq (r1 r2 : re)
| Opt (r : re)            (* (?:r)? *)
| Group (r : re).         (* (r), capture group 1 *)

Definition is_digit (c : ascii) : bool :=
  let n := nat_of_ascii c in (48 <=? n)%nat && (n <=? 57)%nat.

Definition is_space (c : ascii) : bool :=
  let n := nat_of_ascii c in ((9 <=? n)%nat && (n <=? 13)%nat) || (n =? 32)%nat.

(** The input still to match, and group 1 as the inputs at its start and at
    its end. *)
Definition state : Type := list ascii * option (list ascii * list ascii).

(** A greedy repetition of a character class, between [lo] and
    [taken + fuel] characters: take one more if possible, and fall back to
    stopping here when the rest of the match fails. *)
Fixpoint rep_class {A} (cls : ascii -> bool) (lo taken fuel : nat)
    (s : list ascii) (k : list ascii -> option A) : option A :=
  let stop := if (lo <=? taken)%nat then k s else None in
  match fuel with
  | O => stop
  | S f =>
      match s with
      | c :: s' =>
          if cls c then
            match rep_class cls lo (S taken) f s' k with
            | Some x => Some x
            | None => stop
            end
          else stop
      | [] => stop
      end
  end.

Fixpoint m {A} (r : re) (st : state) (k : state -> option A) : option A :=
  let '(s, cap) := st in
  match r with
  | Lit c =>
      match s with
      | d :: s' => if Ascii.eqb c d then k (s', cap) else None
      | [] => None
      end
  | Digits lo hi => rep_class is_digit lo 0 hi s (fun s' => k (s', cap))
  | Spaces1 => rep_class is_space 1 0 (length s) s (fun s' => k (s', cap))
  | Seq r1 r2 => m r1 st (fun st' => m r2 st' k)
  | Opt r1 =>
      match m r1 st k with
      | Some x => Some x
      | None => k st
      end
  | Group r1 => m r1 st (fun '(s', _) => k (s', Some (s, s')))
  end.

(** Try every start position from the left; return the start and the final
    state of the first match. *)
Fixpoint exec (r : re) (s : list ascii) : option (list ascii * state) :=
  match m r (s, None) (fun st => Some st) with
  | Some st => Some (s, st)
  | None =>
      match s with
      | [] => None
      | _ :: s' => exec r s'
      end
  end.

(** The text between two positions given as the input remaining at each. *)
Definition slice (start stop : list ascii) : list ascii :=
  take (length start - length stop) start.

(** [re.find(s).map(|m| m.as_str())] *)
Definition find (r : re) (s : string) : option string :=
  match exec r (list_ascii_of_string s) with
  | Some (start, (stop, _)) => Some (string_of_list_ascii (slice start stop))
  | None => None
  end.

(** [re.captures(s)] followed by [cap.get(1)]. *)
Definition captures_get1 (r : re) (s : string) : option string :=
  match exec r (list_ascii_of_string s) with
  | Some (_, (_, Some (a, b))) => Some (string_of_list_ascii (slice a b))
  | _ => None
  end.

Fixpoint lits (w : list ascii) (r : re) : re :=
  match w with
  | [] => r
  | c :: w' => Seq (Lit c) (lits w' r)
  end.

(** [\d{1,5}\.\d{1,5}\.\d{1,5}] *)
Definition xyz : re :=
  Seq (Digits 1 5) (Seq (Lit ".") (Seq (Digits 1 5) (Seq (Lit ".") (Digits 1 5)))).

(** [\d{1,5}\.\d{1,5}\.\d{1,5}(?:\.\d{1,5})?] *)
Definition xyzw : re := Seq xyz (Opt (Seq (Lit ".") (Digits 1 5))).

End Regex.

(* ------------------------------------------------------------------ *)
(** ** src/src/app.rs *)
Module AppRs.

Record App := mkApp {
  name : string;
  bin : string;
  description : option string;
  repo : option string;
  install_command : option string;
  update_command : option string;
  version_command : option string
}.

Record AppStatus := mkAppStatus {
  app : App;
  current_version : option string;
  latest_version : option string;
  pixi_managed : option bool
}.

(** [AppStatus::is_version_update_needed]. [parse] is
    [semver::Version::parse] ([None] for its [Err]) and [cmp] the [Ord] of
    [semver::Version]; [latest_semver > current_semver] is
    [cmp latest current = Gt]. *)
Definition is_version_update_needed {Version : Type}
    (parse : string -> option Version) (cmp : Version -> Version -> comparison)
    (st : AppStatus) : bool :=
  match current_version st, latest_version st with
  | None, None => false
  | None, Some _ => true
  | Some current_ver, Some latest_ver =>
      match parse current_ver, parse latest_ver with
      | Some current_semver, Some latest_semver =>
          match cmp latest_semver current_semver with Gt => true | _ => false end
      | _, _ => negb (String.eqb current_ver latest_ver)
      end
  | Some _, None => false
  end.

(** The patterns of [extract_version_from_string], in order of preference. *)
Definition patterns : list Regex.re :=
  [ Regex.Group Regex.xyzw;
    Regex.Seq (Regex.Lit "v") (Regex.Group Regex.xyzw);
    Regex.lits (list_ascii_of_string "version")
      (Regex.Seq Regex.Spaces1 (Regex.Group Regex.xyzw));
    Regex.Group (Regex.Seq (Regex.Digits 1 5)
                   (Regex.Seq (Regex.Lit ".") (Regex.Digits 1 5))) ].

(** [extract_version_from_string]: the first pattern whose capture group 1
    is found wins. *)
Fixpoint first_capture (ps : list Regex.re) (s : string) : option string :=
  match ps with
  | [] => None
  | p :: ps' =>
      match Regex.captures_get1 p s with
      | Some v => Some v
      | None => first_capture ps' s
      end
  end.

Definition extract_version_from_string (s : string) : option string :=
  first_capture patterns s.

End AppRs.

(* ------------------------------------------------------------------ *)
(** ** src/src/main.rs *)
Module MainRs.

Record App := mkApp {
  name : string;
  bin : string;
  repo : option string;
  template : option string;
  install_command : option string;
  update_command : option string;
  script : option string
}.

Record SystemInfo := mkSystemInfo { si_os : string; si_arch : string; suffix : string }.

Record AppStatus := mkAppStatus {
  app : App;
  current_version : option string;
  latest_version : option string;
  needs_install : bool;
  pixi_managed : bool
}.

Inductive InstallationMethod := Template | Commands | Script.

Definition get_template (a : App) : string :=
  match template a with
  | Some t => t
  | None => "{bin}-v{version}-{suffix}.tar.gz"
  end.

Definition has_repo (a : App) : bool := if repo a then true else false.

Definition get_repo (a : App) : string :=
  match repo a with Some r => r | None => EmptyString end.

Definition installation_method (a : App) : InstallationMethod :=
  if (if install_command a then true else false)
     || (if update_command a then true else false) then Commands
  else if (if script a then true else false) then Script
  else Template.

(** What the program sees of the machine it runs on. *)
Record Host := mkHost {
  net : Net;
  (** [check_pixi_managed(bin)]: runs [pixi] locally. *)
  pixi_of : string -> bool;
  (** stdout of [bin --version], [None] when the command cannot be run. *)
  version_output : string -> option string;
  (** [get_bin_dir()] *)
  bin_dir : res string;
  (** [chrono::DateTime::from_timestamp(t, 0)] is [Some] ... *)
  ts_in_range : Z -> bool;
  (** [.format("%Y-%m-%d %H:%M:%S UTC")] of that date *)
  fmt_utc : Z -> string;
  (** [chrono::Utc::now()] as a Unix timestamp *)
  now : Z;
  (** [StatusCode::canonical_reason] *)
  canonical_reason : Z -> option string;
  (** [process_template(template, app, version, system_info)]: expands the
      [{download(..)}] calls and then the variables, whose [HashMap]
      iteration order is unspecified; left to the host. *)
  process_template : string -> App -> string -> SystemInfo -> M string;
  (** [sh -c cmd] succeeded *)
  shell_ok : string -> bool;
  (** unpacking, locating and copying the binary of a downloaded archive
      (the part of [download_and_install] after the HTTP response) *)
  unpack_and_copy : App -> string -> Response -> M unit
}.

Definition user_agent : list (string * string) :=
  [("user-agent", "gh-app-installer/0.1.0")].

(** The [Display] of a [reqwest::StatusCode]. *)
Definition status_display (h : Host) (code : Z) : string :=
  (z2s code ++ " " ++
   match canonical_reason h code with Some r => r | None => "<unknown status code>" end)%string.

(** [extract_version_from_string] of main.rs: [(\d{1,5}\.\d{1,5}\.\d{1,5})]. *)
Definition extract_version_from_string (s : string) : option string :=
  Regex.find (Regex.Group Regex.xyz) s.

(** [get_current_version(bin)] *)
Definition get_current_version (h : Host) (bin_name : string) : option string :=
  match version_output h bin_name with
  | Some out => extract_version_from_string out
  | None => None
  end.

Definition rate_limit_url : string := "https://api.github.com/rate_limit".

(** [reset_time as i64] and [DateTime::from_timestamp(..).unwrap_or_default()]. *)
Definition reset_datetime (h : Host) (reset_time : Z) : Z :=
  let t := if (reset_time <? 2 ^ 63)%Z then reset_time else (reset_time - 2 ^ 64)%Z in
  if ts_in_range h t then t else 0%Z.

(** [time_until_reset] rendered as in [get_latest_version]; chrono's
    [num_hours] and [num_minutes] truncate toward zero. *)
Definition delta_str (secs : Z) : string :=
  if (secs <=? 0)%Z then "should reset now"
  else if (0 <? Z.quot secs 3600)%Z then ("in " ++ z2s (Z.quot secs 3600) ++ "hrs")%string
  else if (0 <? Z.quot secs 60)%Z then ("in " ++ z2s (Z.quot secs 60) ++ "min")%string
  else "very soon".

Definition rate_limit_exceeded_msg (h : Host) (reset_time : Z) : string :=
  let dt := reset_datetime h reset_time in
  ("🚨 GitHub API rate limit exceeded. Resets at: " ++ fmt_utc h dt
   ++ " (" ++ delta_str (dt - now h)%Z ++ ")")%string.

Definition print (msg : string) : M unit := emit (Println msg).

(** [get_latest_version(repo)] *)
Definition get_latest_version (h : Host) (repo : string) : M string :=
  rl ← send (net h) (mkRequest rate_limit_url user_agent);
  (if negb (is_success (status rl)) then
     print "⚠️  Could not check rate limit, proceeding anyway"
   else
     rate_limit_text ← text rl;
     match body_json rl with
     | Some rate_limit =>
         let rate := jindex rate_limit "rate" in
         let remaining := match as_u64 (jindex rate "remaining") with
                          | Some n => n | None => 1%Z end in
         if (remaining =? 0)%Z then
           let reset_time := match as_u64 (jindex rate "reset") with
                             | Some n => n | None => 0%Z end in
           throw (ErrMsg (rate_limit_exceeded_msg h reset_time))
         else mret tt
     | None => mret tt
     end) ;;
  let url := ("https://api.github.com/repos/" ++ repo ++ "/releases/latest")%string in
  response ← send (net h) (mkRequest url user_agent);
  if negb (is_success (status response)) then
    throw (ErrMsg ("Failed to fetch latest release: HTTP "
                  ++ status_display h (status response))%string)
  else
    response_text ← text response;
    match body_json response with
    | None => throw (ErrMsg ("Failed to parse JSON response: " ++ response_text)%string)
    | Some release =>
        match as_str (jindex release "tag_name") with
        | None => throw (ErrMsg "No tag_name found in release")
        | Some tag_name =>
            match extract_version_from_string tag_name with
            | Some v => mret v
            | None => throw (ErrMsg ("Could not extract version from tag: " ++ tag_name)%string)
            end
        end
    end.

(** [get_app_status(app, system_info)] *)
Definition get_app_status (h : Host) (a : App) (_si : SystemInfo) : M AppStatus :=
  let pixi_managed := pixi_of h (bin a) in
  let current_version := get_current_version h (bin a) in
  latest_version ←
    (if has_repo a then get_latest_version h (get_repo a)
     else mret (match current_version with Some v => v | None => "unknown" end));
  let needs_install :=
    negb pixi_managed
    && (match current_version with None => true | Some _ => false end
        || (has_repo a && negb (bool_decide (current_version = Some latest_version)))) in
  mret (mkAppStatus a current_version (Some latest_version) needs_install pixi_managed).

(** The line [print_app_status] writes. *)
Definition status_line (st : AppStatus) : string :=
  let n := name (app st) in
  if pixi_managed st then
    match current_version st with
    | Some v => ("ℹ️  " ++ n ++ " (" ++ v ++ ") [pixi managed]")%string
    | None => ("ℹ️  " ++ n ++ " [pixi managed]")%string
    end
  else
    match current_version st, latest_version st with
    | Some current, Some latest =>
        if String.eqb current latest then
          ("✅ " ++ n ++ " is already at the latest version (" ++ latest ++ ")")%string
        else ("🆕 " ++ n ++ " v" ++ current ++ " -> v" ++ latest ++ " (update available)")%string
    | None, Some latest => ("📦 " ++ n ++ " v" ++ latest ++ " (not installed)")%string
    | _, _ => ("❓ " ++ n ++ " (version unknown)")%string
    end.

Definition print_app_status (st : AppStatus) : M unit := print (status_line st).

(** [str::replace], non-overlapping occurrences from the left; the empty
    pattern matches between every two characters. *)
Fixpoint replace_empty (rep s : string) : string :=
  match s with
  | EmptyString => rep
  | String c s' => (rep ++ String c (replace_empty rep s'))%string
  end.

Fixpoint replace_fuel (fuel : nat) (pat rep s : string) : string :=
  match fuel with
  | O => s
  | S f =>
      match s with
      | EmptyString => EmptyString
      | String c s' =>
          if starts_with pat s then
            (rep ++ replace_fuel f pat rep (String.substring (String.length pat)
                                              (String.length s) s))%string
          else String c (replace_fuel f pat rep s')
      end
  end.

Definition str_replace (s pat rep : string) : string :=
  match pat with
  | EmptyString => replace_empty rep s
  | _ => replace_fuel (String.length s) pat rep s
  end.

(** [build_download_url(app, version, system_info)] *)
Definition build_download_url (a : App) (version : string) (si : SystemInfo) : res string :=
  let filename :=
    str_replace (str_replace (str_replace (str_replace (str_replace (str_replace
      (get_template a) "{name}" (name a)) "{bin}" (bin a)) "{version}" version)
      "{os}" (si_os si)) "{arch}" (si_arch si)) "{suffix}" (suffix si) in
  Ok ("https://github.com/" ++ get_repo a ++ "/releases/download/" ++ version
      ++ "/" ++ filename)%string.

(** [download_and_install(app, url)] *)
Definition download_and_install (h : Host) (a : App) (url : string) : M unit :=
  _ ← lift (bin_dir h);
  response ← send (net h) (mkRequest url user_agent);
  if negb (is_success (status response)) then
    throw (ErrMsg ("Failed to download: HTTP " ++ status_display h (status response))%string)
  else unpack_and_copy h a url response.

Definition unwrap_none_msg : string := "called `Option::unwrap()` on a `None` value".

(** [option.as_ref().unwrap()] *)
Definition unwrap {A} (o : option A) : M A :=
  match o with
  | Some x => mret x
  | None => ([], Panic unwrap_none_msg)
  end.

(** [execute_app_commands(app, version, system_info, is_update)] *)
Definition execute_app_commands (h : Host) (a : App) (version : string)
    (si : SystemInfo) (is_update : bool) : M unit :=
  command ←
    (if is_update && (if update_command a then true else false) then
       print "🔄 Running update command..." ;; unwrap (update_command a)
     else
       print "🔄 Running install command..." ;; unwrap (install_command a));
  processed_command ← process_template h command a version si;
  emit (Shell processed_command) ;;
  if shell_ok h processed_command then mret tt
  else throw (ErrMsg "Command failed").

(** [execute_app_script(app, version, system_info)] *)
Definition execute_app_script (h : Host) (a : App) (version : string) (si : SystemInfo) : M unit :=
  script ← unwrap (script a);
  processed_script ← process_template h script a version si;
  print "🔄 Executing script..." ;;
  emit (Shell processed_script) ;;
  if shell_ok h processed_script then mret tt
  else throw (ErrMsg "Script failed").

(** [preview_installation_steps(app, version, system_info, is_update)] *)
Definition preview_installation_steps (h : Host) (a : App) (version : string)
    (si : SystemInfo) (is_update : bool) : M unit :=
  match installation_method a with
  | Template =>
      url ← lift (build_download_url a version si);
      print ("📥 Would download: " ++ url)%string ;;
      d ← lift (bin_dir h);
      print ("📦 Would extract and install binary to: " ++ d)%string
  | Commands =>
      command ←
        (if is_update && (if update_command a then true else false)
         then unwrap (update_command a) else unwrap (install_command a));
      processed_command ← process_template h command a version si;
      print ("🔧 Would run: " ++ processed_command)%string
  | Script =>
      script ← unwrap (script a);
      processed_script ← process_template h script a version si;
      print ("📜 Would execute script: " ++ processed_script)%string
  end.

(** [install_app(app, system_info, dry_run)] *)
Definition install_app (h : Host) (a : App) (si : SystemInfo) (dry_run : bool) : M unit :=
  st ← get_app_status h a si;
  if pixi_managed st then print_app_status st
  else if negb (needs_install st) then print_app_status st
  else
    latest_version ← unwrap (latest_version st);
    let is_update := if current_version st then true else false in
    if dry_run then
      print ("🔍 [DRY RUN] Would " ++ (if is_update then "update" else "install") ++ " "
             ++ name a ++ " v" ++ latest_version)%string ;;
      preview_installation_steps h a latest_version si is_update
    else
      print ((if is_update then "🔄 Updating" else "🔄 Installing") ++ " " ++ name a
             ++ " v" ++ latest_version)%string ;;
      (match installation_method a with
       | Template =>
           url ← lift (build_download_url a latest_version si);
           print ("ℹ️  Downloading from " ++ url)%string ;;
           download_and_install h a url
       | Commands => execute_app_commands h a latest_version si is_update
       | Script => execute_app_script h a latest_version si
       end) ;;
      match get_current_version h (bin a) with
      | Some v => print ("✅ " ++ name a ++ " v" ++ v ++ " installed successfully")%string
      | None => print ("⚠️  " ++ name a ++ " installed but version check failed")%string
      end.

(** The text before and after the first [c] of a character list. *)
Fixpoint break_at (c : ascii) (l : list ascii) : option (list ascii * list ascii) :=
  match l with
  | [] => None
  | d :: l' =>
      if Ascii.eqb c d then Some ([], l')
      else match break_at c l' with
           | Some (a, b) => Some (d :: a, b)
           | None => None
           end
  end.

(** The text before and after the last [c]. *)
Definition rsplit_once (c : ascii) (l : list ascii) : option (list ascii * list ascii) :=
  match break_at c (rev l) with
  | Some (after_rev, before_rev) => Some (rev before_rev, rev after_rev)
  | None => None
  end.

(** [Path::with_extension(ext)] on a [/]-separated path: the file name loses
    the part after its last dot (a leading dot does not start an extension)
    and gets [.ext]. A path with no file name is returned unchanged. *)
Definition with_extension (p ext : string) : string :=
  let l := list_ascii_of_string p in
  let '(dir, fname) := match rsplit_once "/" l with
                       | Some (d, f) => (d ++ ["/"%char], f)
                       | None => ([], l)
                       end in
  match fname with
  | [] => p
  | _ =>
      let stem := match rsplit_once "." fname with
                  | Some ([], _) => fname
                  | Some (st, _) => st
                  | None => fname
                  end in
      string_of_list_ascii (dir ++ stem ++ "."%char :: list_ascii_of_string ext)
  end.

(** A file-system call followed by [?]: [ok] tells which calls succeed. *)
Definition fs_call (ok : event -> bool) (ev : event) : M unit :=
  emit ev ;; if ok ev then mret tt else throw (ErrLib "std::io::Error").

(** The "Replace current binary" block of [self_update] (main.rs lines
    1011-1035). [windows] is [cfg(windows)]; [backup_exists] is
    [backup_path.exists()]. On Windows the final [fs::remove_file] is
    [let _ = ..]: its result is ignored. *)
Definition replace_current_binary (windows : bool) (ok : event -> bool)
    (backup_exists : bool) (current_exe new_binary_path : string) : M unit :=
  print "🔄 Replacing current binary..." ;;
  if windows then
    let backup_path := with_extension current_exe "exe.old" in
    (if backup_exists then fs_call ok (FsRemove backup_path) else mret tt) ;;
    fs_call ok (FsRename current_exe backup_path) ;;
    fs_call ok (FsCopy new_binary_path current_exe) ;;
    emit (FsRemove backup_path)
  else
    fs_call ok (FsCopy new_binary_path current_exe) ;;
    fs_call ok (FsMetadata current_exe) ;;
    fs_call ok (FsSetMode current_exe 493%Z). (* 0o755 *)

End MainRs.

(* ------------------------------------------------------------------ *)
(** ** src/src/main.rs: the command-line driver and self-update *)
Module MainCli.
Import MainRs.

(** [filter_apps(apps, app_name)] *)
Definition filter_apps (apps : list App) (app_name : option string) : res (list App) :=
  match app_name with
  | Some n =>
      match List.find (fun a => String.eqb (name a) n || String.eqb (bin a) n) apps with
      | Some a => Ok [a]
      | None => Err (ErrMsg ("App '" ++ n ++ "' not found in configuration")%string)
      end
  | None => Ok apps
  end.

(** [detect_system_info()], given [std::env::consts::OS] and [ARCH]. *)
Definition detect_system_info (os arch : string) : res SystemInfo :=
  let is (o a : string) := String.eqb os o && String.eqb arch a in
  if is "linux" "x86_64" then Ok (mkSystemInfo "linux" "x86_64" "x86_64-unknown-linux-musl")
  else if is "linux" "aarch64" then Ok (mkSystemInfo "linux" "aarch64" "aarch64-unknown-linux-musl")
  else if is "macos" "x86_64" then Ok (mkSystemInfo "darwin" "x86_64" "x86_64-apple-darwin")
  else if is "macos" "aarch64" then Ok (mkSystemInfo "darwin" "aarch64" "x86_64-apple-darwin")
  else if is "windows" "x86_64" then Ok (mkSystemInfo "windows" "x86_64" "x86_64-pc-windows-msvc")
  else Err (ErrMsg ("Unsupported platform: " ++ os ++ "-" ++ arch)%string).

(** [match c.await { Ok(x) => .., Err(e) => .. }]: an error becomes a value
    the caller inspects; a panic unwinds through it. *)
Definition try_M {A} (c : M A) : M (A + error) :=
  match c with
  | (t, Ok a) => (t, Ok (inl a))
  | (t, Err e) => (t, Ok (inr e))
  | (t, Panic s) => (t, Panic s)
  end.

(** [check_apps(apps, system_info, stop_on_error)]. The [eprintln!] of a
    failure goes to stderr, which the trace does not record. *)
Fixpoint check_apps (h : Host) (apps : list App) (si : SystemInfo)
    (stop_on_error : bool) : M unit :=
  match apps with
  | [] => mret tt
  | a :: rest =>
      r ← try_M (get_app_status h a si);
      match r with
      | inl status => print_app_status status ;; check_apps h rest si stop_on_error
      | inr e => if stop_on_error then throw e else check_apps h rest si stop_on_error
      end
  end.

(** [install_apps(apps, system_info, dry_run, stop_on_error)]; as above for
    [eprintln!]. *)
Fixpoint install_apps (h : Host) (apps : list App) (si : SystemInfo)
    (dry_run stop_on_error : bool) : M unit :=
  match apps with
  | [] => mret tt
  | a :: rest =>
      r ← try_M (install_app h a si dry_run);
      match r with
      | inl _ => install_apps h rest si dry_run stop_on_error
      | inr e => if stop_on_error then throw e else install_apps h rest si dry_run stop_on_error
      end
  end.

(** [str::ends_with] *)
Definition ends_with (suf s : string) : bool :=
  let n := String.length s in
  let k := String.length suf in
  (k <=? n)%nat && String.eqb (String.substring (n - k) k s) suf.

(** [build_self_update_url(version, system_info)] *)
Definition build_self_update_url (version : string) (si : SystemInfo) : res string :=
  let archive_ext := if String.eqb (si_os si) "windows" then "zip" else "tar.gz" in
  let filename := ("rs-gh-app-" ++ suffix si ++ "." ++ archive_ext)%string in
  Ok ("https://github.com/mfouesneau/rs-gh-app/releases/download/v" ++ version ++ "/"
      ++ filename)%string.

(** A directory listing: what [fs::read_dir] yields, in its order. *)
Inductive entry :=
| File (fname : string)
| Dir (dname : string) (children : list entry).

(** [Path::join] *)
Definition join (dir n : string) : string := (dir ++ "/" ++ n)%string.

(** [search_recursive(dir, bin_name)] of [find_binary_in_extracted], on the
    listing of [dir]; [read_dir] errors are not modelled. *)
Fixpoint search_entry (dir : string) (bin_name : string) (e : entry) : option string :=
  match e with
  | File n =>
      if String.eqb n bin_name || String.eqb n (bin_name ++ ".exe") then Some (join dir n)
      else None
  | Dir n cs =>
      (fix go (cs : list entry) : option string :=
         match cs with
         | [] => None
         | c :: cs' =>
             match search_entry (join dir n) bin_name c with
             | Some p => Some p
             | None => go cs'
             end
         end) cs
  end.

Fixpoint search_recursive (dir : string) (bin_name : string) (es : list entry) : option string :=
  match es with
  | [] => None
  | e :: es' =>
      match search_entry dir bin_name e with
      | Some p => Some p
      | None => search_recursive dir bin_name es'
      end
  end.

(** [find_binary_in_extracted(dir, bin_name)] *)
Definition find_binary_in_extracted (dir : string) (es : list entry) (bin_name : string)
    : res string :=
  match search_recursive dir bin_name es with
  | Some p => Ok p
  | None => Err (ErrMsg ("Binary '" ++ bin_name ++ "' not found in extracted archive")%string)
  end.

End MainCli.

(* ------------------------------------------------------------------ *)
(** ** [self_update] (main.rs) *)
Module SelfUpdate.
Import MainRs MainCli.

(** What [self_update] sees of the machine beyond [Host]. *)
Record SelfHost := mkSelfHost {
  (** [env!("CARGO_PKG_VERSION")] *)
  cargo_pkg_version : string;
  (** [cfg(windows)] *)
  windows : bool;
  (** the text of a library error, as [e.to_string()] shows it *)
  lib_err_text : string -> string;
  (** [std::env::current_exe()], [None] when it fails *)
  current_exe : option string;
  (** the [fs::metadata(..)] / read-only check: [Some e] when it fails with [e] *)
  exe_check : string -> option string;
  (** [TempDir::new()] *)
  temp_dir : option string;
  (** [response.bytes()] and [extract_tar_gz] / [extract_zip] succeed *)
  extract_tar_gz_ok : Response -> bool;
  extract_zip_ok : Response -> bool;
  (** the listing of the temporary directory after extraction *)
  extracted : list entry;
  (** the file-system calls that succeed, and [backup_path.exists()] *)
  fs_ok : event -> bool;
  backup_exists : bool
}.

(** [e.to_string()] *)
Definition err_string (sh : SelfHost) (e : error) : string :=
  match e with ErrMsg m => m | ErrLib o => lib_err_text sh o end.

Definition SELF_REPO : string := "mfouesneau/rs-gh-app".

(** [self_update(system_info, dry_run)]; [parse] and [cmp] are
    [Version::parse] and the order of [semver::Version], whose [==] agrees
    with it. *)
Definition self_update {Version : Type} (parse : string -> option Version)
    (cmp : Version -> Version -> comparison) (h : Host) (sh : SelfHost)
    (si : SystemInfo) (dry_run : bool) : M unit :=
  let CURRENT_VERSION := cargo_pkg_version sh in
  print "🔍 Checking for updates to gh-app-installer..." ;;
  r ← try_M (get_latest_version h SELF_REPO);
  match r with
  | inr e =>
      if contains (err_string sh e) "404" then
        print "ℹ️  No releases found on GitHub. This might be a development build." ;;
        print ("ℹ️  Current version: v" ++ CURRENT_VERSION)%string
      else throw e
  | inl latest_version =>
      current_version ←
        (match parse CURRENT_VERSION with
         | Some v => mret v
         | None => throw (ErrMsg ("Invalid current version: " ++ CURRENT_VERSION)%string)
         end);
      latest_version_parsed ←
        (match parse latest_version with
         | Some v => mret v
         | None => throw (ErrMsg ("Invalid latest version: " ++ latest_version)%string)
         end);
      match cmp latest_version_parsed current_version with
      | Eq =>
          print ("✅ gh-app-installer is already at the latest version (v"
                 ++ CURRENT_VERSION ++ ")")%string
      | Lt =>
          print ("ℹ️  Local version (v" ++ CURRENT_VERSION
                 ++ ") is newer than the latest release (v" ++ latest_version ++ ")")%string
      | Gt =>
          if dry_run then
            print ("🔍 [DRY RUN] Would update gh-app-installer v" ++ CURRENT_VERSION
                   ++ " -> v" ++ latest_version)%string ;;
            url ← lift (build_self_update_url latest_version si);
            print ("📥 Would download: " ++ url)%string ;;
            print "🔄 Would replace current binary"
          else
            print ("🆕 Updating gh-app-installer v" ++ CURRENT_VERSION ++ " -> v"
                   ++ latest_version)%string ;;
            current_exe ←
              (match current_exe sh with
               | Some p => mret p
               | None => throw (ErrMsg "Failed to get current executable path")
               end);
            (match exe_check sh current_exe with
             | Some e =>
                 throw (ErrMsg ("❌ Cannot update: insufficient permissions to replace binary at "
                   ++ current_exe ++ "
   Error: " ++ e ++ "
   Hint: Try running with elevated permissions or reinstall manually")%string)
             | None => mret tt
             end) ;;
            url ← lift (build_self_update_url latest_version si);
            print ("ℹ️  Downloading from " ++ url)%string ;;
            temp_path ←
              (match temp_dir sh with
               | Some p => mret p
               | None => throw (ErrLib "tempfile::TempDir::new")
               end);
            response ← send (net h) (mkRequest url user_agent);
            if negb (is_success (status response)) then
              throw (ErrMsg ("Failed to download update: HTTP "
                             ++ status_display h (status response))%string)
            else
              (if ends_with ".tar.gz" url then
                 (if extract_tar_gz_ok sh response then mret tt
                  else throw (ErrLib "extract_tar_gz"))
               else if ends_with ".zip" url then
                 (if extract_zip_ok sh response then mret tt
                  else throw (ErrLib "extract_zip"))
               else throw (ErrMsg "Unsupported archive format for self-update")) ;;
              new_binary_path ←
                (match find_binary_in_extracted temp_path (extracted sh) "rs-gh-app" with
                 | Ok p => mret p
                 | _ =>
                     match find_binary_in_extracted temp_path (extracted sh) "gh-app-installer" with
                     | Ok p => mret p
                     | _ => throw (ErrMsg "Could not find updated binary in downloaded archive")
                     end
                 end);
              replace_current_binary (windows sh) (fs_ok sh) (backup_exists sh)
                current_exe new_binary_path ;;
              print ("✅ Successfully updated gh-app-installer to v" ++ latest_version)%string ;;
              print "🎉 Restart your terminal or run the command again to use the new version"
      end
  end.

End SelfUpdate.

(* ------------------------------------------------------------------ *)
(** ** [check_rate_limit] (github.rs) *)
Module GithubRate.
Import MainRs.

(** [check_rate_limit()]; the clock, the date conversion and its format
    are those of the [Host]. *)
Definition check_rate_limit (h : Host) : M unit :=
  rate_limit_response ← send (net h) (mkRequest "https://api.github.com/rate_limit"
                                        [("user-agent", "gh-app-installer/0.1.0")]);
  if negb (is_success (status rate_limit_response)) then
    print "⚠️  Could not check rate limit, proceeding anyway"
  else
    rate_limit_text ← text rate_limit_response;
    match body_json rate_limit_response with
    | Some rate_limit =>
        let rate := jindex rate_limit "rate" in
        let remaining := match as_u64 (jindex rate "remaining") with
                         | Some n => n | None => 1%Z end in
        let reset_time := match as_u64 (jindex rate "reset") with
                          | Some n => n | None => 0%Z end in
        let reset_dt := reset_datetime h reset_time in
        let delta := delta_str (reset_dt - now h)%Z in
        if (0 <? remaining)%Z then
          print ("✅  Rate limit remaining: " ++ z2s remaining)%string ;;
          print ("ℹ️  Rate limit reset at: " ++ fmt_utc h reset_dt ++ " " ++ delta)%string
        else
          throw (ErrMsg ("🚨 GitHub API rate limit exceeded. Resets at: " ++ fmt_utc h reset_dt
                         ++ " (" ++ delta ++ ")")%string)
    | None => throw (ErrMsg "Unexpected response from GitHub API")
    end.

End GithubRate.

(* ------------------------------------------------------------------ *)
(** ** [get_current_version_with_debug] (app.rs) *)
Module AppVersion.

(** What [Command::new(bin).args(..).output()] gives: the exit status and
    the two streams, decoded by [from_utf8_lossy]. *)
Record Output := mkOutput { success : bool; stdout : string; stderr : string }.

(** [run bin args]: [None] when the command cannot be started. *)
Definition Runner := string -> list string -> option Output.

Definition version_flags : list string := ["--version"; "-V"; "-v"; "version"].

Definition debug_print (debug : bool) (msg : string) : M unit :=
  if debug then emit (Println msg) else mret tt.

(** The run without arguments, after every flag failed. *)
Definition version_without_args (run : Runner) (bin_name : string) (debug : bool)
    : M (option string) :=
  let not_found :=
    debug_print debug ("⚠️  Could not detect version for '" ++ bin_name
                       ++ "' using any method")%string ;; mret None in
  match run bin_name [] with
  | Some output =>
      match AppRs.extract_version_from_string (stdout output) with
      | Some version =>
          debug_print debug ("🔍 Version detected from '" ++ bin_name ++ " (no args)' help output: "
                             ++ version)%string ;; mret (Some version)
      | None =>
          match AppRs.extract_version_from_string (stderr output) with
          | Some version =>
              debug_print debug ("🔍 Version detected from '" ++ bin_name
                                 ++ " (no args)' help output (stderr): " ++ version)%string ;;
              mret (Some version)
          | None => not_found
          end
      end
  | None => not_found
  end.

(** The [for flag in &version_flags] loop, then the fallback. *)
Fixpoint try_flags (run : Runner) (bin_name : string) (debug : bool) (flags : list string)
    : M (option string) :=
  match flags with
  | [] => version_without_args run bin_name debug
  | flag :: rest =>
      match run bin_name [flag] with
      | Some output =>
          if success output then
            match AppRs.extract_version_from_string (stdout output) with
            | Some version =>
                debug_print debug ("🔍 Version detected using '" ++ bin_name ++ " " ++ flag
                                   ++ "': " ++ version)%string ;; mret (Some version)
            | None =>
                match AppRs.extract_version_from_string (stderr output) with
                | Some version =>
                    debug_print debug ("🔍 Version detected using '" ++ bin_name ++ " " ++ flag
                                       ++ "' (from stderr): " ++ version)%string ;;
                    mret (Some version)
                | None => try_flags run bin_name debug rest
                end
            end
          else try_flags run bin_name debug rest
      | None => try_flags run bin_name debug rest
      end
  end.

(** [get_current_version_with_debug(bin_name, debug)] *)
Definition get_current_version_with_debug (run : Runner) (bin_name : string) (debug : bool)
    : M (option string) :=
  try_flags run bin_name debug version_flags.

End AppVersion.

(* ------------------------------------------------------------------ *)
(** ** Concrete inputs *)
Module Inputs.

(** A network that answers every request with the same response. *)
Definition const_net (r : Response) : Net := fun _ => Some r.

(** A network that is down. *)
Definition offline_net : Net := fun _ => None.

(** A [Version::parse] for plain [major.minor.patch] strings of decimal
    digits, with the lexicographic order of the three numbers. *)
Fixpoint digits_value (acc : Z) (l : list ascii) : option Z :=
  match l with
  | [] => Some acc
  | c :: l' =>
      if Regex.is_digit c then digits_value (10 * acc + Z.of_nat (nat_of_ascii c - 48))%Z l'
      else None
  end.

Definition core_semver_parse (s : string) : option (Z * Z * Z) :=
  match MainRs.break_at "." (list_ascii_of_string s) with
  | Some (a, rest) =>
      match MainRs.break_at "." rest with
      | Some (b, c) =>
          match a, b, c with
          | _ :: _, _ :: _, _ :: _ =>
              x ← digits_value 0 a; y ← digits_value 0 b; z ← digits_value 0 c;
              Some (x, y, z)
          | _, _, _ => None
          end
      | None => None
      end
  | None => None
  end.

Definition core_semver_cmp (v w : Z * Z * Z) : comparison :=
  let '(a1, b1, c1) := v in
  let '(a2, b2, c2) := w in
  match Z.compare a1 a2 with
  | Eq => match Z.compare b1 b2 with Eq => Z.compare c1 c2 | o => o end
  | o => o
  end.

Definition linux_x86_64 : MainRs.SystemInfo :=
  MainRs.mkSystemInfo "linux" "x86_64" "x86_64-unknown-linux-musl".

(** A machine without pixi, where [bin --version] prints [vout bin]. *)
Definition host (n : Net) (vout : string -> option string) : MainRs.Host :=
  MainRs.mkHost n (fun _ => false) vout (Ok "/home/user/.local/bin")
    (fun _ => true) z2s 1700000000%Z
    (fun c => if (c =? 404)%Z then Some "Not Found" else None)
    (fun t _ _ _ => mret t) (fun _ => true) (fun _ _ _ => mret tt).

(** The GitHub API with its rate limit used up. *)
Definition rate_limited_net : Net := fun rq =>
  if String.eqb (req_url rq) MainRs.rate_limit_url then
    Some (mkResponse 200
            (Some "{rate: {remaining: 0, reset: 1700003600}}")
            (Some (JObj [("rate", JObj [("remaining", JNum 0); ("reset", JNum 1700003600)])])))
  else Some (mkResponse 200 (Some "{}") (Some (JObj []))).

Definition no_version : string -> option string := fun _ => None.

(** An application with no repository, no commands and no script. *)
Definition bare_app : MainRs.App := MainRs.mkApp "tool" "tool" None None None None None.

(** An application with only an update command. *)
Definition update_only_app : MainRs.App :=
  MainRs.mkApp "uv" "uv" None None None (Some "{bin_path} self update") None.

(** An application released on GitHub, installed from its release archive. *)
Definition repo_app : MainRs.App :=
  MainRs.mkApp "dust" "dust" (Some "bootandy/dust") None None None None.

(** The GitHub API answering every request with a release tagged [tag]; the
    rate-limit check finds no [rate] field and goes on. *)
Definition release_net (tag : string) : Net :=
  const_net (mkResponse 200 (Some "{tag_name: ...}") (Some (JObj [("tag_name", JStr tag)]))).

(** A machine where every binary is managed by pixi. *)
Definition pixi_host (n : Net) (vout : string -> option string) : MainRs.Host :=
  MainRs.mkHost n (fun _ => true) vout (Ok "/home/user/.local/bin")
    (fun _ => true) z2s 1700000000%Z
    (fun c => if (c =? 404)%Z then Some "Not Found" else None)
    (fun t _ _ _ => mret t) (fun _ => true) (fun _ _ _ => mret tt).

(** A self-update host running version [ver]: its executable is writable,
    downloads extract, file-system calls succeed; the archive is empty. *)
Definition self_host (ver : string) : SelfUpdate.SelfHost :=
  SelfUpdate.mkSelfHost ver false (fun o => o) (Some "/usr/local/bin/gh-app-installer")
    (fun _ => None) (Some "/tmp/update") (fun _ => true) (fun _ => true) []
    (fun _ => true) false.

End Inputs.

(* ------------------------------------------------------------------ *)
(** ** What the version patterns denote *)
Module RegexSpec.
Import Regex.

(** [lang r s s']: [r] matches a prefix of [s], leaving [s']. *)
Fixpoint lang (r : re) (s s' : list ascii) : Prop :=
  match r with
  | Lit c => s = c :: s'
  | Digits lo hi =>
      exists p, s = p ++ s' /\ Forall (fun c => is_digit c = true) p
                /\ (lo <= length p <= hi)%nat
  | Spaces1 =>
      exists p, s = p ++ s' /\ Forall (fun c => is_space c = true) p /\ (1 <= length p)%nat
  | Seq r1 r2 => exists mid, lang r1 s mid /\ lang r2 mid s'
  | Opt r1 => s = s' \/ lang r1 s s'
  | Group r1 => lang r1 s s'
  end.

Fixpoint no_group (r : re) : bool :=
  match r with
  | Seq r1 r2 => no_group r1 && no_group r2
  | Opt r1 => no_group r1
  | Group _ => false
  | _ => true
  end.

(** A version component: one to five decimal digits. *)
Definition part (d : list ascii) : Prop :=
  Forall (fun c => is_digit c = true) d /\ (1 <= length d <= 5)%nat.

(** [x.y.z] *)
Definition three_part (v : list ascii) : Prop :=
  exists a b c, v = a ++ "."%char :: b ++ "."%char :: c /\ part a /\ part b /\ part c.

(** [x.y.z] or [x.y.z.w] *)
Definition three_or_four_part (v : list ascii) : Prop :=
  three_part v \/
  exists a b c d, v = a ++ "."%char :: b ++ "."%char :: c ++ "."%char :: d
                  /\ part a /\ part b /\ part c /\ part d.

End RegexSpec.

(** The message printed before the running binary is replaced. *)
Definition replacing_msg : string := "🔄 Replacing current binary...".

(** Two release assets for the same platform, one without a download URL. *)
Definition asset_without_url : Github.Asset :=
  Github.mkAsset 1 "app-linux-x86_64.tar.gz" None None 100 0 None.

Definition asset_with_url : Github.Asset :=
  Github.mkAsset 2 "app-linux-x86_64.zip" None None 100 0
    (Some "https://example.org/app-linux-x86_64.zip").

(** All names of a list are in lower case. *)
Definition all_lower (l : list string) : Prop := Forall (fun a => to_lowercase a = a) l.

(* ------------------------------------------------------------------ *)
(** ** Notions used by the properties of the driver code *)

(** The ([OS], [ARCH]) pairs [detect_system_info] accepts. *)
Definition supported_platforms : list (string * string) :=
  [("linux", "x86_64"); ("linux", "aarch64"); ("macos", "x86_64"); ("macos", "aarch64");
   ("windows", "x86_64")].

(** A computation that does not panic, whatever it returns. *)
Definition never_panics {A} (c : M A) : Prop := forall s, snd c <> Panic s.

(** An event a dry run of [install_app] may produce after the status check:
    a printed line, or an effect of [process_template]. *)
Definition dry_event (h : MainRs.Host) (a : MainRs.App) (si : MainRs.SystemInfo) (ev : event)
    : Prop :=
  (exists m, ev = Println m) \/
  (exists tmpl v, In ev (fst (MainRs.process_template h tmpl a v si))).

(** [str_replace] with a non-empty pattern, as [str_replace] runs it. *)
Definition replace_len (pat rep s : string) : string :=
  MainRs.replace_fuel (String.length s) pat rep s.

(** A text with no [{] in it. *)
Definition nobrace (s : string) : Prop := ~ In "{"%char (list_ascii_of_string s).





(** A computation that does not fail with the message [m]. *)
Definition no_err_msg {A} (m : string) (c : M A) : Prop := snd c <> Err (ErrMsg m).

Definition unsupported_msg : string := "Unsupported archive format for self-update".

Definition is_println (ev : event) : Prop := exists m, ev = Println m.

(** [v] is what [extract_version_from_string] finds in the stdout or the
    stderr of [bin_name args]. *)
Definition version_from (run : AppVersion.Runner) (bin_name : string) (args : list string)
    (v : string) : Prop :=
  exists o, run bin_name args = Some o /\
            (AppRs.extract_version_from_string (AppVersion.stdout o) = Some v \/
             AppRs.extract_version_from_string (AppVersion.stderr o) = Some v).

(* ================================================================== *)
(** * Properties *)

(** Run the writer-and-error monad on a concrete program. *)
Ltac mrun :=
  repeat unfold mbind, mret, M_bind, M_ret, throw, emit, lift in *; simpl in *.

(* ------------------------------------------------------------------ *)
(** ** Fetching releases (github.rs) *)

(** C10: [Release::fetch_latest] never fails: whenever
    [fetch_latest_release] returns an error (malformed repository string,
    network failure, 404 or any other status, undecodable body), the result
    is a release with empty [tag_name] and [html_url] and no assets. *)
Theorem fetch_latest_swallows_errors (net : Net) (repo : string) (token : option string)
    (Herr : is_ok (snd (Github.fetch_latest_release net repo token)) = false) :
  snd (Github.fetch_latest net repo token)
  = Github.mkRelease EmptyString EmptyString [].
Proof.
  unfold Github.fetch_latest.
  destruct (Github.fetch_latest_release net repo token) as [tr r].
  simpl in Herr |- *. destruct r; [discriminate | reflexivity | reflexivity].
Qed.

Lemma fetch_latest_swallows_errors_witness :
  is_ok (snd (Github.fetch_latest_release Inputs.offline_net "noslash" None)) = false /\
  snd (Github.fetch_latest Inputs.offline_net "noslash" None)
  = Github.mkRelease EmptyString EmptyString [].
Proof.
  split; [reflexivity|].
  apply fetch_latest_swallows_errors. reflexivity.
Defined.

(** C7: a 404 answer to the latest-release request gives the error
    "No release found", while every other non-success status gives
    "GitHub API returned error <code>: <body>", a different error. *)
Theorem fetch_latest_release_404_distinct (repo : string) (token : option string)
    (r404 r : Response)
    (Hrepo : split_once "/" repo <> None)
    (H404 : status r404 = 404%Z)
    (Hfail : is_success (status r) = false)
    (Hne : status r <> 404%Z) :
  snd (Github.fetch_latest_release (Inputs.const_net r404) repo token)
  = Err (ErrMsg Github.no_release_msg) /\
  snd (Github.fetch_latest_release (Inputs.const_net r) repo token)
  = Err (ErrMsg (Github.api_error_msg (status r)
                   (match body_text r with Some t => t | None => EmptyString end))) /\
  snd (Github.fetch_latest_release (Inputs.const_net r) repo token)
  <> Err (ErrMsg Github.no_release_msg).
Proof.
  assert (H200 : status r <> 200%Z).
  { intros E. rewrite E in Hfail. discriminate. }
  unfold Github.fetch_latest_release.
  destruct (split_once "/" repo) as [[o n]|]; [|congruence]. simpl.
  rewrite H404. simpl.
  destruct (Z.eqb_spec (status r) 200); [contradiction|].
  destruct (Z.eqb_spec (status r) 404); [contradiction|].
  simpl. split; [reflexivity|]. split; [reflexivity|].
  intros E. injection E. unfold Github.api_error_msg, Github.no_release_msg.
  simpl. discriminate.
Qed.

Lemma fetch_latest_release_404_distinct_witness :
  split_once "/" "bootandy/dust" <> None /\
  snd (Github.fetch_latest_release (Inputs.const_net (mkResponse 404 (Some "nf") None))
         "bootandy/dust" None)
  = Err (ErrMsg Github.no_release_msg) /\
  snd (Github.fetch_latest_release (Inputs.const_net (mkResponse 500 (Some "boom") None))
         "bootandy/dust" None)
  = Err (ErrMsg (Github.api_error_msg 500 "boom")) /\
  snd (Github.fetch_latest_release (Inputs.const_net (mkResponse 500 (Some "boom") None))
         "bootandy/dust" None)
  <> Err (ErrMsg Github.no_release_msg).
Proof.
  split; [discriminate|].
  apply (fetch_latest_release_404_distinct "bootandy/dust" None
           (mkResponse 404 (Some "nf") None) (mkResponse 500 (Some "boom") None));
    simpl; [discriminate | reflexivity | reflexivity | discriminate].
Defined.

(* ------------------------------------------------------------------ *)
(** ** Replacing the running binary (main.rs, self_update) *)

(** C1, as the code does it: on Windows the running executable is renamed
    to the [.exe.old] backup (after removing a stale backup, if one
    exists), the new binary is copied to the original path, and the backup
    is removed only once that copy has succeeded; no permission change is
    made there. On other platforms there is no rename and no backup: the new
    binary is copied over the running executable, then its mode is set to
    0o755. Each step runs only if the previous one succeeded. *)
Theorem replace_current_binary_steps (ok : event -> bool) (backup_exists : bool)
    (cur nb : string) :
  let b := MainRs.with_extension cur "exe.old" in
  fst (MainRs.replace_current_binary true ok backup_exists cur nb)
  = Println replacing_msg
    :: (if backup_exists then [FsRemove b] else [])
    ++ (if backup_exists && negb (ok (FsRemove b)) then []
        else FsRename cur b
             :: (if ok (FsRename cur b)
                 then FsCopy nb cur :: (if ok (FsCopy nb cur) then [FsRemove b] else [])
                 else []))
  /\
  fst (MainRs.replace_current_binary false ok backup_exists cur nb)
  = [Println replacing_msg; FsCopy nb cur]
    ++ (if ok (FsCopy nb cur)
        then FsMetadata cur
             :: (if ok (FsMetadata cur) then [FsSetMode cur 493%Z] else [])
        else []).
Proof.
  intros b. split.
  - unfold MainRs.replace_current_binary, MainRs.fs_call, MainRs.print, emit.
    fold b.
    destruct backup_exists; simpl;
      [destruct (ok (FsRemove b)); simpl|];
      try reflexivity;
      destruct (ok (FsRename cur b)); simpl; try reflexivity;
      destruct (ok (FsCopy nb cur)); reflexivity.
  - unfold MainRs.replace_current_binary, MainRs.fs_call, MainRs.print. mrun.
    destruct (ok (FsCopy nb cur)); mrun; try reflexivity.
    destruct (ok (FsMetadata cur)); mrun; try reflexivity.
    destruct (ok (FsSetMode cur 493)); reflexivity.
Qed.

(** C1 fails as stated: on a non-Windows system a successful replacement
    renames nothing (the new binary is copied straight over the running
    executable), and on Windows the permissions are never set. *)
Lemma replace_current_binary_no_rename_off_windows :
  (forall d, ~ In (FsRename "/usr/local/bin/rs-gh-app" d)
       (fst (MainRs.replace_current_binary false (fun _ => true) false
               "/usr/local/bin/rs-gh-app" "/tmp/x/rs-gh-app"))) /\
  (forall p mode, ~ In (FsSetMode p mode)
       (fst (MainRs.replace_current_binary true (fun _ => true) false
               "C:/bin/rs-gh-app.exe" "C:/tmp/rs-gh-app.exe"))).
Proof.
  split.
  - intros d H. vm_compute in H. intuition discriminate.
  - intros p mode H. vm_compute in H. intuition discriminate.
Qed.

(* ------------------------------------------------------------------ *)
(** ** Deciding whether to update (app.rs) *)

(** C4: [is_version_update_needed] is false when the current and latest
    versions are the same string (parsable or not), true when both parse and
    the latest is greater, true when nothing is installed but a latest
    version is known, and false when the latest version is unknown. The only
    property of semver's [Ord] used is that a version compares [Equal] with
    itself. *)
Theorem is_version_update_needed_cases {Version : Type}
    (parse : string -> option Version) (cmp : Version -> Version -> comparison)
    (cmp_refl : forall v, cmp v v = Eq) (st : AppRs.AppStatus) :
  (forall s, AppRs.current_version st = Some s -> AppRs.latest_version st = Some s ->
     AppRs.is_version_update_needed parse cmp st = false) /\
  (forall c l vc vl, AppRs.current_version st = Some c -> AppRs.latest_version st = Some l ->
     parse c = Some vc -> parse l = Some vl -> cmp vl vc = Gt ->
     AppRs.is_version_update_needed parse cmp st = true) /\
  (forall l, AppRs.current_version st = None -> AppRs.latest_version st = Some l ->
     AppRs.is_version_update_needed parse cmp st = true) /\
  (AppRs.latest_version st = None -> AppRs.is_version_update_needed parse cmp st = false).
Proof.
  unfold AppRs.is_version_update_needed.
  split; [|split; [|split]].
  - intros s -> ->. destruct (parse s) as [v|].
    + rewrite cmp_refl. reflexivity.
    + rewrite String.eqb_refl. reflexivity.
  - intros c l vc vl -> -> -> -> ->. reflexivity.
  - intros l -> ->. reflexivity.
  - intros ->. destruct (AppRs.current_version st); reflexivity.
Qed.

Lemma is_version_update_needed_cases_witness :
  (forall v, Inputs.core_semver_cmp v v = Eq) /\
  AppRs.is_version_update_needed Inputs.core_semver_parse Inputs.core_semver_cmp
    (AppRs.mkAppStatus (AppRs.mkApp "bat" "bat" None None None None None)
       (Some "0.24.0") (Some "0.25.0") None) = true.
Proof.
  assert (R : forall v, Inputs.core_semver_cmp v v = Eq).
  { intros [[a b] c]. simpl. rewrite !Z.compare_refl. reflexivity. }
  split; [exact R|].
  apply (proj1 (proj2 (is_version_update_needed_cases Inputs.core_semver_parse
                          Inputs.core_semver_cmp R _))
           "0.24.0" "0.25.0" (0, 24, 0)%Z (0, 25, 0)%Z); reflexivity.
Defined.

(* ------------------------------------------------------------------ *)
(** ** Resolving the latest version (main.rs) *)

(** The trace of a bound computation extends the trace of its first step. *)
Lemma bind_trace_prefix {A B} (c : M A) (f : A -> M B) :
  exists rest, fst (c ≫= f) = fst c ++ rest.
Proof.
  destruct c as [t [a|e|s]]; mrun.
  - destruct (f a) as [t2 r]. exists t2. reflexivity.
  - exists []. rewrite app_nil_r. reflexivity.
  - exists []. rewrite app_nil_r. reflexivity.
Qed.

(** C5: [get_latest_version] asks for the rate-limit status before anything
    else, and when that status is readable and reports zero remaining
    requests it stops with the rate-limit error, which carries the reset
    time: the release request is never made. *)
Theorem get_latest_version_rate_limit_first (h : MainRs.Host) (repo : string) :
  (exists rest, fst (MainRs.get_latest_version h repo) = HttpGet MainRs.rate_limit_url :: rest) /\
  (forall rl t j,
     MainRs.net h (mkRequest MainRs.rate_limit_url MainRs.user_agent) = Some rl ->
     is_success (status rl) = true ->
     body_text rl = Some t ->
     body_json rl = Some j ->
     as_u64 (jindex (jindex j "rate") "remaining") = Some 0%Z ->
     MainRs.get_latest_version h repo
     = ([HttpGet MainRs.rate_limit_url],
        Err (ErrMsg (MainRs.rate_limit_exceeded_msg h
                       (match as_u64 (jindex (jindex j "rate") "reset") with
                        | Some n => n | None => 0%Z end))))).
Proof.
  split.
  - unfold MainRs.get_latest_version.
    match goal with
    | |- context [fst (mbind ?f ?c)] => destruct (bind_trace_prefix c f) as [rest ->]
    end.
    unfold send. mrun.
    destruct (MainRs.net h _); mrun; eexists; reflexivity.
  - intros rl t j Hnet Hs Ht Hj Hr.
    unfold MainRs.get_latest_version, send, text. mrun.
    rewrite Hnet. mrun. rewrite Hs. mrun. rewrite Ht. mrun. rewrite Hj, Hr. mrun.
    reflexivity.
Qed.

Lemma get_latest_version_rate_limit_first_witness :
  MainRs.get_latest_version (Inputs.host Inputs.rate_limited_net Inputs.no_version)
    "sharkdp/bat"
  = ([HttpGet MainRs.rate_limit_url],
     Err (ErrMsg (MainRs.rate_limit_exceeded_msg
                    (Inputs.host Inputs.rate_limited_net Inputs.no_version) 1700003600))).
Proof.
  apply (proj2 (get_latest_version_rate_limit_first
                  (Inputs.host Inputs.rate_limited_net Inputs.no_version) "sharkdp/bat")
           (mkResponse 200 (Some "{rate: {remaining: 0, reset: 1700003600}}")
              (Some (JObj [("rate", JObj [("remaining", JNum 0); ("reset", JNum 1700003600)])])))
           "{rate: {remaining: 0, reset: 1700003600}}"
           (JObj [("rate", JObj [("remaining", JNum 0); ("reset", JNum 1700003600)])]));
    reflexivity.
Defined.

(* ------------------------------------------------------------------ *)
(** ** Installing applications (main.rs) *)

(** What [get_app_status] computes when it succeeds. *)
Lemma get_app_status_ok (h : MainRs.Host) (a : MainRs.App) (si : MainRs.SystemInfo)
    (tr : list event) (st : MainRs.AppStatus) :
  MainRs.get_app_status h a si = (tr, Ok st) ->
  MainRs.app st = a /\
  MainRs.current_version st = MainRs.get_current_version h (MainRs.bin a) /\
  MainRs.pixi_managed st = MainRs.pixi_of h (MainRs.bin a) /\
  (exists l, MainRs.latest_version st = Some l) /\
  MainRs.needs_install st
  = negb (MainRs.pixi_of h (MainRs.bin a))
    && (match MainRs.get_current_version h (MainRs.bin a) with None => true | Some _ => false end
        || (MainRs.has_repo a
            && negb (bool_decide (MainRs.get_current_version h (MainRs.bin a)
                                  = MainRs.latest_version st)))).
Proof.
  unfold MainRs.get_app_status. intros E.
  destruct (MainRs.has_repo a).
  - destruct (MainRs.get_latest_version h (MainRs.get_repo a)) as [t [l|e|s]]; mrun;
      inversion E; subst; simpl; eauto 10.
  - mrun. inversion E; subst; simpl; eauto 10.
Qed.

(** C9: an application with an update command but no install command, whose
    version cannot be detected (a fresh install), makes a real install
    panic: [install_app] takes the Commands path and [execute_app_commands]
    unwraps the missing install command. This holds whenever the status
    check succeeds and the binary is not managed by pixi, the conditions
    under which the install goes ahead at all. *)
Theorem install_update_only_app_panics (h : MainRs.Host) (a : MainRs.App)
    (si : MainRs.SystemInfo) (u : string) (tr : list event) (st : MainRs.AppStatus)
    (Hu : MainRs.update_command a = Some u)
    (Hi : MainRs.install_command a = None)
    (Hc : MainRs.get_current_version h (MainRs.bin a) = None)
    (Hp : MainRs.pixi_of h (MainRs.bin a) = false)
    (Hs : MainRs.get_app_status h a si = (tr, Ok st)) :
  snd (MainRs.install_app h a si false) = Panic MainRs.unwrap_none_msg.
Proof.
  destruct (get_app_status_ok h a si tr st Hs) as (_ & Hcur & Hpixi & [l Hl] & Hneeds).
  rewrite Hc, Hp in Hneeds. simpl in Hneeds.
  unfold MainRs.install_app. rewrite Hs. mrun.
  rewrite Hpixi, Hp, Hneeds, Hl. mrun. rewrite Hcur, Hc. mrun.
  unfold MainRs.installation_method. rewrite Hi, Hu. mrun.
  unfold MainRs.execute_app_commands. rewrite Hi. mrun.
  reflexivity.
Qed.

Lemma install_update_only_app_panics_witness :
  snd (MainRs.install_app (Inputs.host Inputs.offline_net Inputs.no_version)
         Inputs.update_only_app Inputs.linux_x86_64 false)
  = Panic MainRs.unwrap_none_msg.
Proof.
  apply (install_update_only_app_panics _ _ _ "{bin_path} self update" []
           (MainRs.mkAppStatus Inputs.update_only_app None (Some "unknown") true false));
    reflexivity.
Defined.

(** C2, as the code does it: for an application with no repository and no
    install or update command, the status check makes no network request;
    its latest version is the detected current version, or "unknown" when
    none is detected (so an installed copy is reported as up to date). When
    such an application is not installed and not managed by pixi it needs an
    install, and a real install of it (with no script either) takes the
    release-download path: it requests the URL built from an empty
    repository and the version "unknown". *)
Theorem bare_app_status_and_install (h : MainRs.Host) (a : MainRs.App)
    (si : MainRs.SystemInfo)
    (Hr : MainRs.repo a = None)
    (Hi : MainRs.install_command a = None)
    (Hu : MainRs.update_command a = None) :
  MainRs.get_app_status h a si
  = ([], Ok (MainRs.mkAppStatus a (MainRs.get_current_version h (MainRs.bin a))
               (Some (match MainRs.get_current_version h (MainRs.bin a) with
                      | Some v => v | None => "unknown" end))
               (negb (MainRs.pixi_of h (MainRs.bin a))
                && match MainRs.get_current_version h (MainRs.bin a) with
                   | None => true | Some _ => false end)
               (MainRs.pixi_of h (MainRs.bin a)))) /\
  (forall d url,
     MainRs.script a = None ->
     MainRs.pixi_of h (MainRs.bin a) = false ->
     MainRs.get_current_version h (MainRs.bin a) = None ->
     MainRs.bin_dir h = Ok d ->
     MainRs.build_download_url a "unknown" si = Ok url ->
     In (HttpGet url) (fst (MainRs.install_app h a si false))).
Proof.
  assert (Hst : MainRs.get_app_status h a si
    = ([], Ok (MainRs.mkAppStatus a (MainRs.get_current_version h (MainRs.bin a))
               (Some (match MainRs.get_current_version h (MainRs.bin a) with
                      | Some v => v | None => "unknown" end))
               (negb (MainRs.pixi_of h (MainRs.bin a))
                && match MainRs.get_current_version h (MainRs.bin a) with
                   | None => true | Some _ => false end)
               (MainRs.pixi_of h (MainRs.bin a))))).
  { unfold MainRs.get_app_status, MainRs.has_repo. rewrite Hr. mrun.
    destruct (MainRs.get_current_version h (MainRs.bin a)); simpl;
      rewrite ?orb_false_r; reflexivity. }
  split; [exact Hst|].
  intros d url Hs Hp Hc Hd Hurl.
  unfold MainRs.install_app. rewrite Hst. rewrite Hp, Hc.
  unfold MainRs.installation_method. rewrite Hi, Hu, Hs.
  repeat unfold mbind, mret, M_bind, M_ret, throw, emit, lift.
  cbn -[MainRs.build_download_url MainRs.download_and_install].
  rewrite Hurl. mrun. unfold MainRs.download_and_install. rewrite Hd. mrun.
  unfold send. mrun.
  destruct (MainRs.net h _) as [resp|]; mrun.
  - destruct (negb (is_success (status resp))); mrun;
      [|destruct (MainRs.unpack_and_copy h a url resp) as [t [x|e|m]]; mrun];
      try (destruct (MainRs.get_current_version h (MainRs.bin a)); mrun);
      intuition.
  - intuition.
Qed.

Lemma bare_app_status_and_install_witness :
  In (HttpGet "https://github.com//releases/download/unknown/tool-vunknown-x86_64-unknown-linux-musl.tar.gz")
     (fst (MainRs.install_app (Inputs.host Inputs.offline_net Inputs.no_version)
             Inputs.bare_app Inputs.linux_x86_64 false)).
Proof.
  apply (proj2 (bare_app_status_and_install (Inputs.host Inputs.offline_net Inputs.no_version)
                  Inputs.bare_app Inputs.linux_x86_64 eq_refl eq_refl eq_refl)
           "/home/user/.local/bin"); reflexivity.
Defined.

(** C2 fails as stated: an installed application without repository or
    commands gets its own version as the latest one and is reported as up
    to date, and a real install of a missing one issues an HTTP request. *)
Lemma bare_app_not_unknown_and_downloads :
  snd (MainRs.get_app_status (Inputs.host Inputs.offline_net (fun _ => Some "tool 1.2.3"))
         Inputs.bare_app Inputs.linux_x86_64)
  = Ok (MainRs.mkAppStatus Inputs.bare_app (Some "1.2.3") (Some "1.2.3") false false) /\
  MainRs.status_line (MainRs.mkAppStatus Inputs.bare_app (Some "1.2.3") (Some "1.2.3") false false)
  = "✅ tool is already at the latest version (1.2.3)" /\
  fst (MainRs.install_app (Inputs.host Inputs.offline_net Inputs.no_version)
         Inputs.bare_app Inputs.linux_x86_64 false)
  = [Println "🔄 Installing tool vunknown";
     Println "ℹ️  Downloading from https://github.com//releases/download/unknown/tool-vunknown-x86_64-unknown-linux-musl.tar.gz";
     HttpGet "https://github.com//releases/download/unknown/tool-vunknown-x86_64-unknown-linux-musl.tar.gz"].
Proof. vm_compute. split; [reflexivity | split; reflexivity]. Qed.

(* ------------------------------------------------------------------ *)
(** ** Matching release assets to the platform (github.rs) *)

(** C3, as the code does it: [find_platform_assets] never fails; it returns,
    in their original order, exactly the assets whose name matches the
    platform, whether or not they have a download URL. It neither filters on
    the URL, nor selects one asset, nor warns. *)
Theorem find_platform_assets_keeps_all_matches (cur : Github.Platform)
    (assets : list Github.Asset) (mo : option Github.PlatformMatcher)
    (po : option Github.Platform) :
  exists l,
    Github.find_platform_assets cur assets mo po = Ok l /\
    l `sublist_of` assets /\
    (forall a, a ∈ assets ->
       (a ∈ l <-> Github.asset_matcher cur (Github.name a)
                    (Some (Github.matcher_or_default mo))
                    (Some (Github.platform_or cur po)) = Ok tt)).
Proof.
  eexists. split; [reflexivity|]. split; [apply sublist_filter|].
  intros a Ha. rewrite list_elem_of_filter.
  destruct (Github.asset_matcher _ _ _ _) as [[]|e|s]; simpl; intuition discriminate.
Qed.

(** C3 fails as stated: with two matching assets, the first without a URL,
    the result is both assets, not the one with a URL. *)
Lemma find_platform_assets_returns_both :
  Github.find_platform_assets (Github.mkPlatform "linux" "x86_64")
    [asset_without_url; asset_with_url] None None
  = Ok [asset_without_url; asset_with_url] /\
  Github.find_platform_assets (Github.mkPlatform "linux" "x86_64")
    [asset_without_url; asset_with_url] None None
  <> Ok [asset_with_url].
Proof. split; [reflexivity | discriminate]. Qed.

Lemma starts_with_lower (p s : string) :
  starts_with p s = true -> starts_with (to_lowercase p) (to_lowercase s) = true.
Proof.
  revert s. induction p as [|c p IH]; intros s H; [reflexivity|].
  destruct s as [|d s]; [discriminate|]. simpl in *.
  apply andb_prop in H as [Hc Hp]. apply Ascii.eqb_eq in Hc. subst d.
  rewrite Ascii.eqb_refl. simpl. auto.
Qed.

Lemma contains_lower (s p : string) :
  contains s p = true -> contains (to_lowercase s) (to_lowercase p) = true.
Proof.
  induction s as [|c s IH]; intros H; simpl in *.
  - destruct p; [reflexivity|discriminate].
  - apply orb_prop in H as [H|H].
    + apply starts_with_lower in H. simpl in H. rewrite H. reflexivity.
    + rewrite IH by exact H. apply orb_true_r.
Qed.

(** A needle already in lower case is found in the lowered name. *)
Lemma contains_lowered_name (s t : string) :
  to_lowercase t = t -> contains s t = true -> contains (to_lowercase s) t = true.
Proof. intros Ht H. rewrite <- Ht. apply contains_lower, H. Qed.

(** Every alias list of the default matcher lists its own key, in lower
    case. *)
Lemma default_os_aliases_self (o : string) (l : list string) :
  Github.os_aliases Github.default_matcher !! o = Some l -> In o l /\ all_lower l.
Proof.
  simpl. intros H.
  repeat (apply lookup_insert_Some in H as [[<- <-]|[_ H]];
          [split; [simpl; auto | repeat constructor] |]).
  rewrite lookup_empty in H. discriminate.
Qed.

Lemma default_arch_aliases_self (c : string) (l : list string) :
  Github.arch_aliases Github.default_matcher !! c = Some l -> In c l /\ all_lower l.
Proof.
  simpl. intros H.
  repeat (apply lookup_insert_Some in H as [[<- <-]|[_ H]];
          [split; [simpl; auto | repeat constructor] |]).
  rewrite lookup_empty in H. discriminate.
Qed.

Lemma existsb_In_true {A} (f : A -> bool) (l : list A) (x : A) :
  In x l -> f x = true -> existsb f l = true.
Proof. intros Hin Hf. apply existsb_exists. eauto. Qed.

(** C8, as the code does it: with the default matcher, for every platform
    whose os and arch names are in lower case (as [Platform::current]
    reports them), an asset name containing the os name or one of its
    registered aliases, and the arch name or one of its registered aliases,
    matches the platform. *)
Theorem asset_matcher_default_canonical_or_alias (cur p : Github.Platform)
    (asset_name ot at' : string)
    (Hos : to_lowercase (Github.os p) = Github.os p)
    (Harch : to_lowercase (Github.arch p) = Github.arch p)
    (Hot : ot = Github.os p \/
           exists l, Github.os_aliases Github.default_matcher !! Github.os p = Some l /\ In ot l)
    (Hat : at' = Github.arch p \/
           exists l, Github.arch_aliases Github.default_matcher !! Github.arch p = Some l
                     /\ In at' l)
    (Hcot : contains asset_name ot = true)
    (Hcat : contains asset_name at' = true) :
  Github.asset_matcher cur asset_name None (Some p) = Ok tt.
Proof.
  set (name := to_lowercase asset_name).
  assert (Lot : contains name ot = true).
  { apply contains_lowered_name; [|exact Hcot].
    destruct Hot as [->|(l & Hl & Hin)]; [exact Hos|].
    destruct (default_os_aliases_self _ _ Hl) as [_ Hlow].
    exact (proj1 (List.Forall_forall _ _) Hlow ot Hin). }
  assert (Lat : contains name at' = true).
  { apply contains_lowered_name; [|exact Hcat].
    destruct Hat as [->|(l & Hl & Hin)]; [exact Harch|].
    destruct (default_arch_aliases_self _ _ Hl) as [_ Hlow].
    exact (proj1 (List.Forall_forall _ _) Hlow at' Hin). }
  unfold Github.asset_matcher, Github.matcher_or_default, Github.platform_or.
  fold name.
  destruct (contains name (Github.os p) && contains name (Github.arch p)) eqn:Hdirect;
    [reflexivity|].
  (* the alias of a token, or the token itself when it is registered *)
  assert (Ino : forall oas, Github.os_aliases Github.default_matcher !! Github.os p = Some oas ->
                            In ot oas).
  { intros oas Ho. destruct Hot as [->|(l & Hl & Hin)].
    - exact (proj1 (default_os_aliases_self _ _ Ho)).
    - rewrite Ho in Hl. injection Hl as ->. exact Hin. }
  assert (Ina : forall aas, Github.arch_aliases Github.default_matcher !! Github.arch p = Some aas ->
                            In at' aas).
  { intros aas Ha. destruct Hat as [->|(l & Hl & Hin)].
    - exact (proj1 (default_arch_aliases_self _ _ Ha)).
    - rewrite Ha in Hl. injection Hl as ->. exact Hin. }
  destruct (Github.os_aliases Github.default_matcher !! Github.os p) as [oas|] eqn:Ho;
  destruct (Github.arch_aliases Github.default_matcher !! Github.arch p) as [aas|] eqn:Ha.
  - rewrite (existsb_In_true
               (fun oa => existsb (fun aa => contains name oa && contains name aa) aas)
               oas ot (Ino oas eq_refl)); [reflexivity|].
    apply (existsb_In_true _ aas at' (Ina aas eq_refl)). rewrite Lot, Lat. reflexivity.
  - rewrite (existsb_In_true (fun oa => contains name oa) oas ot (Ino oas eq_refl) Lot).
    reflexivity.
  - rewrite (existsb_In_true (fun aa => contains name aa) aas at' (Ina aas eq_refl) Lat).
    reflexivity.
  - destruct Hot as [->|(l & Hl & _)]; [|discriminate].
    destruct Hat as [->|(l & Hl & _)]; [|discriminate].
    rewrite Lot, Lat in Hdirect. discriminate.
Qed.

Lemma asset_matcher_default_canonical_or_alias_witness :
  Github.asset_matcher (Github.mkPlatform "linux" "x86_64") "app-linux-amd64.tar.gz" None
    (Some (Github.mkPlatform "linux" "x86_64")) = Ok tt.
Proof.
  apply (asset_matcher_default_canonical_or_alias _ _ _ "linux" "amd64");
    [reflexivity | reflexivity | left; reflexivity
    | right; exists ["x86_64"; "amd64"]; split; [reflexivity | simpl; auto]
    | reflexivity | reflexivity].
Defined.

(** C8 fails as stated for platforms named in upper case: the asset name is
    lowered before the search but the platform's names are not, so an asset
    literally containing "Linux" and "RISCV64" does not match that
    platform (neither name has registered aliases). *)
Lemma asset_matcher_uppercase_platform_no_match :
  contains "app-Linux-RISCV64.tar.gz" "Linux" = true /\
  contains "app-Linux-RISCV64.tar.gz" "RISCV64" = true /\
  Github.asset_matcher (Github.mkPlatform "linux" "x86_64") "app-Linux-RISCV64.tar.gz" None
    (Some (Github.mkPlatform "Linux" "RISCV64")) = Err (ErrMsg "No match found").
Proof. split; [reflexivity | split; reflexivity]. Qed.

(* ------------------------------------------------------------------ *)
(** ** Extracting versions from text (app.rs and main.rs) *)
Section Matcher.
Import Regex RegexSpec.

Lemma rep_class_sound {A} (cls : ascii -> bool) (lo fuel : nat) :
  forall taken s (k : list ascii -> option A) x,
  rep_class cls lo taken fuel s k = Some x ->
  exists p s', s = p ++ s' /\ Forall (fun c => cls c = true) p
               /\ (lo <= taken + length p)%nat /\ (length p <= fuel)%nat /\ k s' = Some x.
Proof.
  assert (Stop : forall n taken s (k : list ascii -> option A) x,
             (if (lo <=? taken)%nat then k s else None) = Some x ->
             exists p s', s = p ++ s' /\ Forall (fun c => cls c = true) p
                          /\ (lo <= taken + length p)%nat /\ (length p <= n)%nat
                          /\ k s' = Some x).
  { intros n taken s k x H. destruct (Nat.leb_spec lo taken); [|discriminate].
    exists [], s. simpl. repeat split; auto; lia. }
  induction fuel as [|f IH]; intros taken s k x H; simpl in H.
  - apply (Stop 0%nat) in H as (p & s' & Hs & Hp & Hlo & Hlen & Hk).
    exists p, s'. repeat split; auto.
  - destruct s as [|c s1].
    + destruct (Stop 0%nat taken [] k x H) as (p & s' & Hs & Hp & Hlo & Hlen & Hk).
      exists p, s'. repeat split; auto; lia.
    + destruct (cls c) eqn:Hc.
      * destruct (rep_class cls lo (S taken) f s1 k) eqn:E.
        -- injection H as <-.
           destruct (IH _ _ _ _ E) as (p & s' & -> & Hp & Hlo & Hlen & Hk).
           exists (c :: p), s'. simpl. repeat split; auto; lia.
        -- destruct (Stop 0%nat taken (c :: s1) k x H) as (p & s' & Hs & Hp & Hlo & Hlen & Hk).
           exists p, s'. repeat split; auto; lia.
      * destruct (Stop 0%nat taken (c :: s1) k x H) as (p & s' & Hs & Hp & Hlo & Hlen & Hk).
        exists p, s'. repeat split; auto; lia.
Qed.

Lemma rep_class_complete {A} (cls : ascii -> bool) (lo : nat) :
  forall p fuel taken s' (k : list ascii -> option A) x,
  Forall (fun c => cls c = true) p -> (lo <= taken + length p)%nat ->
  (length p <= fuel)%nat -> k s' = Some x ->
  exists y, rep_class cls lo taken fuel (p ++ s') k = Some y.
Proof.
  induction p as [|c p IH]; intros fuel taken s' k x Hp Hlo Hlen Hk; simpl in *.
  - assert (Hl : (lo <=? taken)%nat = true) by (apply Nat.leb_le; lia).
    destruct fuel as [|f]; simpl; rewrite ?Hl.
    + eauto.
    + destruct s' as [|d s1]; rewrite ?Hl; [eauto|].
      destruct (cls d); [|rewrite ?Hl; eauto].
      destruct (rep_class cls lo (S taken) f s1 k); [eauto|rewrite ?Hl; eauto].
  - inversion Hp as [|? ? Hc Hp']; subst.
    destruct fuel as [|f]; [lia|]. simpl. rewrite Hc.
    destruct (IH f (S taken) s' k x Hp' ltac:(lia) ltac:(lia) Hk) as [y Hy].
    rewrite Hy. eauto.
Qed.

Lemma m_sound {A} (r : re) :
  no_group r = true ->
  forall s c (k : state -> option A) x,
  m r (s, c) k = Some x -> exists s', lang r s s' /\ k (s', c) = Some x.
Proof.
  induction r as [ch|lo hi| |r1 IH1 r2 IH2|r1 IH1|r1 IH1]; intros Hng s c k x H;
    simpl in *.
  - destruct s as [|d s']; [discriminate|].
    destruct (Ascii.eqb_spec ch d); [subst|discriminate]. eauto.
  - apply rep_class_sound in H as (p & s' & Hs & Hp & Hlo & Hlen & Hk).
    exists s'. split; [exists p; repeat split; auto; lia | exact Hk].
  - apply rep_class_sound in H as (p & s' & Hs & Hp & Hlo & Hlen & Hk).
    exists s'. split; [exists p; repeat split; auto; lia | exact Hk].
  - apply andb_prop in Hng as [H1 H2].
    destruct (IH1 H1 s c _ x H) as (mid & Hl1 & Hm2).
    destruct (IH2 H2 mid c k x Hm2) as (s' & Hl2 & Hk). eauto.
  - destruct (m r1 (s, c) k) as [y|] eqn:E.
    + injection H as <-. destruct (IH1 Hng s c k y E) as (s' & Hl & Hk). eauto.
    + exists s. auto.
  - discriminate.
Qed.

Lemma m_complete {A} (r : re) :
  no_group r = true ->
  forall s s' c (k : state -> option A) x,
  lang r s s' -> k (s', c) = Some x -> exists y, m r (s, c) k = Some y.
Proof.
  induction r as [ch|lo hi| |r1 IH1 r2 IH2|r1 IH1|r1 IH1]; intros Hng s s' c k x Hl Hk;
    simpl in *.
  - subst s. rewrite Ascii.eqb_refl. eauto.
  - destruct Hl as (p & -> & Hp & Hlen).
    apply (rep_class_complete is_digit lo p hi 0 s' (fun s' => k (s', c)) x);
      auto; lia.
  - destruct Hl as (p & -> & Hp & Hlen).
    apply (rep_class_complete is_space 1 p (length (p ++ s')) 0 s' (fun s' => k (s', c)) x);
      auto; rewrite ?length_app; lia.
  - apply andb_prop in Hng as [H1 H2].
    destruct Hl as (mid & Hl1 & Hl2).
    destruct (IH2 H2 mid s' c k x Hl2 Hk) as [y Hy].
    exact (IH1 H1 s mid c (fun st' => m r2 st' k) y Hl1 Hy).
  - destruct (m r1 (s, c) k) as [y|] eqn:E; [eauto|].
    destruct Hl as [->|Hl]; [eauto|].
    destruct (IH1 Hng s s' c k x Hl Hk) as [y Hy]. congruence.
  - discriminate.
Qed.

Lemma m_group_sound {A} (r : re) (s : list ascii) c (k : state -> option A) x :
  no_group r = true ->
  m (Group r) (s, c) k = Some x ->
  exists s', lang r s s' /\ k (s', Some (s, s')) = Some x.
Proof.
  intros Hng H. simpl in H.
  destruct (m_sound r Hng s c _ x H) as (s' & Hl & Hk). eauto.
Qed.

Lemma m_group_complete {A} (r : re) (s s' : list ascii) c (k : state -> option A) x :
  no_group r = true -> lang r s s' -> k (s', Some (s, s')) = Some x ->
  exists y, m (Group r) (s, c) k = Some y.
Proof.
  intros Hng Hl Hk. simpl.
  exact (m_complete r Hng s s' c (fun '(s'', _) => k (s'', Some (s, s''))) x Hl Hk).
Qed.

Lemma exec_sound (r : re) (s start : list ascii) (st : state) :
  exec r s = Some (start, st) -> m r (start, None) (fun st => Some st) = Some st.
Proof.
  induction s as [|ch s IH]; simpl; intros H.
  - destruct (m r ([], None) (fun st => Some st)) eqn:E; [|discriminate].
    injection H as <- <-. exact E.
  - destruct (m r (ch :: s, None) (fun st => Some st)) eqn:E.
    + injection H as <- <-. exact E.
    + exact (IH H).
Qed.

Lemma exec_complete (r : re) (pre t : list ascii) (y : state) :
  m r (t, None) (fun st => Some st) = Some y -> exists res, exec r (pre ++ t) = Some res.
Proof.
  intros H. induction pre as [|ch pre IH]; simpl.
  - destruct t; simpl; rewrite H; eauto.
  - destruct (m r (ch :: pre ++ t, None) (fun st => Some st)); eauto.
Qed.

Lemma slice_app (v s' : list ascii) : slice (v ++ s') s' = v.
Proof.
  unfold slice. rewrite length_app.
  replace (length v + length s' - length s')%nat with (length v) by lia.
  apply take_app_length.
Qed.

Lemma lang_xyz_shape (s s' : list ascii) :
  lang xyz s s' -> exists v, s = v ++ s' /\ three_part v.
Proof.
  simpl. intros (m1 & (a & -> & Ha & Hla) & m2 & -> & m3 & (b & -> & Hb & Hlb) & m4 & -> &
                 (c & -> & Hc & Hlc)).
  exists (a ++ "."%char :: b ++ "."%char :: c). split.
  - now repeat (rewrite <- app_assoc; simpl).
  - exists a, b, c. repeat split; auto; lia.
Qed.

Lemma lang_xyzw_shape (s s' : list ascii) :
  lang xyzw s s' -> exists v, s = v ++ s' /\ three_or_four_part v.
Proof.
  intros (mid & Hxyz & Hopt).
  destruct (lang_xyz_shape s mid Hxyz) as (v & -> & Hv).
  destruct Hopt as [<-|(m5 & -> & (d & -> & Hd & Hld))].
  - exists v. split; [reflexivity | left; exact Hv].
  - destruct Hv as (a & b & c & -> & [Ha1 Ha2] & [Hb1 Hb2] & [Hc1 Hc2]).
    exists (a ++ "."%char :: b ++ "."%char :: c ++ "."%char :: d). split.
    + now repeat (rewrite <- app_assoc; simpl).
    + right. exists a, b, c, d. repeat split; auto; lia.
Qed.

Lemma lang_xyz_intro (a b c post : list ascii) :
  part a -> part b -> part c ->
  lang xyz (a ++ "."%char :: b ++ "."%char :: c ++ post) post.
Proof.
  intros [Ha Hla] [Hb Hlb] [Hc Hlc]. simpl.
  exists ("."%char :: b ++ "."%char :: c ++ post). split; [exists a; auto|].
  exists (b ++ "."%char :: c ++ post). split; [reflexivity|].
  exists ("."%char :: c ++ post). split; [exists b; auto|].
  exists (c ++ post). split; [reflexivity|]. exists c. auto.
Qed.

Lemma exec_suffix (r : re) (s start : list ascii) (st : state) :
  exec r s = Some (start, st) -> exists pre, s = pre ++ start.
Proof.
  revert start st. induction s as [|ch s IH]; simpl; intros start st H.
  - destruct (m r ([], None) (fun st => Some st)); [|discriminate].
    injection H as <- _. exists []. reflexivity.
  - destruct (m r (ch :: s, None) (fun st => Some st)).
    + injection H as <- _. exists []. reflexivity.
    + destruct (IH start st H) as [pre ->]. exists (ch :: pre). reflexivity.
Qed.

(** Group 1 of a pattern [(r)] found by [captures] (and [find]) is the
    text of a match of [r] inside the input. *)
Lemma captures_group_sound (r : re) (s : string) (v : string) :
  no_group r = true ->
  captures_get1 (Group r) s = Some v ->
  exists pre start s', list_ascii_of_string s = pre ++ start /\ lang r start s'
                       /\ list_ascii_of_string v = slice start s'.
Proof.
  unfold captures_get1. intros Hng H.
  destruct (exec (Group r) (list_ascii_of_string s)) as [[start [stop [[a b]|]]]|] eqn:E;
    try discriminate.
  injection H as <-. destruct (exec_suffix _ _ _ _ E) as [pre Hpre].
  apply exec_sound in E.
  destruct (m_group_sound r start None _ _ Hng E) as (s' & Hl & Hk).
  injection Hk as -> <- <-. rewrite list_ascii_of_string_of_list_ascii.
  exists pre, start, stop. auto.
Qed.

Lemma find_group_sound (r : re) (s : string) (v : string) :
  no_group r = true ->
  find (Group r) s = Some v ->
  exists pre start s', list_ascii_of_string s = pre ++ start /\ lang r start s'
                       /\ list_ascii_of_string v = slice start s'.
Proof.
  unfold find. intros Hng H.
  destruct (exec (Group r) (list_ascii_of_string s)) as [[start [stop cap]]|] eqn:E;
    try discriminate.
  injection H as <-. destruct (exec_suffix _ _ _ _ E) as [pre Hpre].
  apply exec_sound in E.
  destruct (m_group_sound r start None _ _ Hng E) as (s' & Hl & Hk).
  injection Hk as -> _. rewrite list_ascii_of_string_of_list_ascii.
  exists pre, start, stop. auto.
Qed.

(** Whenever [r] matches somewhere in [s], [captures] finds a group. *)
Lemma captures_group_complete (r : re) (s : string) (pre t post : list ascii) :
  no_group r = true ->
  list_ascii_of_string s = pre ++ t -> lang r t post ->
  exists v, captures_get1 (Group r) s = Some v.
Proof.
  intros Hng Hs Hl. unfold captures_get1. rewrite Hs.
  destruct (m_group_complete r t post None (fun st => Some st) _ Hng Hl eq_refl) as [y Hy].
  destruct (exec_complete (Group r) pre t y Hy) as [[start st] E]. rewrite E.
  pose proof (exec_sound _ _ _ _ E) as Hm.
  destruct (m_group_sound r start None _ _ Hng Hm) as (s' & _ & Hk).
  injection Hk as <-. eauto.
Qed.

Lemma find_group_complete (r : re) (s : string) (pre t post : list ascii) :
  no_group r = true ->
  list_ascii_of_string s = pre ++ t -> lang r t post ->
  exists v, find (Group r) s = Some v.
Proof.
  intros Hng Hs Hl. unfold find. rewrite Hs.
  destruct (m_group_complete r t post None (fun st => Some st) _ Hng Hl eq_refl) as [y Hy].
  destruct (exec_complete (Group r) pre t y Hy) as [[start [stop cap]] E]. rewrite E. eauto.
Qed.

End Matcher.

Section Versions.
Import Regex RegexSpec.

Lemma lang_xyzw_intro (a b c post : list ascii) :
  part a -> part b -> part c ->
  lang xyzw (a ++ "."%char :: b ++ "."%char :: c ++ post) post.
Proof.
  intros Ha Hb Hc. exists post. split; [apply lang_xyz_intro; auto | left; reflexivity].
Qed.

Lemma captured_xyzw_token (s v : string) :
  captures_get1 (Group xyzw) s = Some v ->
  exists l r, list_ascii_of_string s = l ++ list_ascii_of_string v ++ r
              /\ three_or_four_part (list_ascii_of_string v).
Proof.
  intros H. destruct (captures_group_sound xyzw s v eq_refl H) as (pre & start & s' & Hs & Hl & Hv).
  destruct (lang_xyzw_shape _ _ Hl) as (w & -> & Hw).
  rewrite slice_app in Hv. rewrite Hv. eauto.
Qed.

Lemma found_xyz_token (s v : string) :
  find (Group xyz) s = Some v ->
  exists l r, list_ascii_of_string s = l ++ list_ascii_of_string v ++ r
              /\ three_part (list_ascii_of_string v).
Proof.
  intros H. destruct (find_group_sound xyz s v eq_refl H) as (pre & start & s' & Hs & Hl & Hv).
  destruct (lang_xyz_shape _ _ Hl) as (w & -> & Hw).
  rewrite slice_app in Hv. rewrite Hv. eauto.
Qed.

(** C6 (amended). If the text contains [x.y.z] with components of one to
    five digits, then app.rs's [extract_version_from_string] answers with
    the capture of its first pattern, a piece of the text of the form [x.y.z]
    or [x.y.z.w] (never a two-part [x.y]); main.rs's answers with a piece of
    the text of the form [x.y.z], so a fourth component is never part of it. *)
Theorem extract_version_three_part (s : string) (pre a b c post : list ascii)
    (Hs : list_ascii_of_string s = pre ++ a ++ "."%char :: b ++ "."%char :: c ++ post)
    (Ha : part a) (Hb : part b) (Hc : part c) :
  (exists v, AppRs.extract_version_from_string s = Some v
             /\ captures_get1 (Group xyzw) s = Some v
             /\ exists l r, list_ascii_of_string s = l ++ list_ascii_of_string v ++ r
                            /\ three_or_four_part (list_ascii_of_string v))
  /\ (exists v, MainRs.extract_version_from_string s = Some v
                /\ exists l r, list_ascii_of_string s = l ++ list_ascii_of_string v ++ r
                               /\ three_part (list_ascii_of_string v)).
Proof.
  split.
  - destruct (captures_group_complete xyzw s pre _ post eq_refl Hs
                (lang_xyzw_intro a b c post Ha Hb Hc)) as [v Hv].
    exists v. unfold AppRs.extract_version_from_string, AppRs.patterns. simpl.
    rewrite Hv. repeat split; auto. exact (captured_xyzw_token s v Hv).
  - destruct (find_group_complete xyz s pre _ post eq_refl Hs
                (lang_xyz_intro a b c post Ha Hb Hc)) as [v Hv].
    exists v. unfold MainRs.extract_version_from_string. split; auto.
    exact (found_xyz_token s v Hv).
Qed.

Lemma extract_version_three_part_witness :
  AppRs.extract_version_from_string "v2.3.4 (build 2.3)" = Some "2.3.4"
  /\ MainRs.extract_version_from_string "v2.3.4 (build 2.3)" = Some "2.3.4"
  /\ ((exists v, AppRs.extract_version_from_string "v2.3.4 (build 2.3)" = Some v
             /\ captures_get1 (Group xyzw) "v2.3.4 (build 2.3)" = Some v
             /\ exists l r, list_ascii_of_string "v2.3.4 (build 2.3)"
                              = l ++ list_ascii_of_string v ++ r
                            /\ three_or_four_part (list_ascii_of_string v))
  /\ (exists v, MainRs.extract_version_from_string "v2.3.4 (build 2.3)" = Some v
                /\ exists l r, list_ascii_of_string "v2.3.4 (build 2.3)"
                                 = l ++ list_ascii_of_string v ++ r
                               /\ three_part (list_ascii_of_string v))).
Proof.
  split; [vm_compute; reflexivity|]. split; [vm_compute; reflexivity|].
  apply (extract_version_three_part "v2.3.4 (build 2.3)" ["v"%char] ["2"%char] ["3"%char]
           ["4"%char] (list_ascii_of_string " (build 2.3)"));
    [reflexivity | split; [repeat constructor | simpl; lia] ..].
Defined.

(** C6 counterexample: main.rs drops the build component of [1.2.3.4], and
    app.rs cuts a six-digit major component down to its last five digits. *)
Lemma extract_version_not_exact_token :
  MainRs.extract_version_from_string "v1.2.3.4" = Some "1.2.3"
  /\ AppRs.extract_version_from_string "123456.7.8" = Some "23456.7.8".
Proof. split; vm_compute; reflexivity. Qed.

End Versions.

(* ================================================================== *)
(** * Properties of the rest of the driver code *)

Lemma find_app_first {A} (f : A -> bool) (pre post : list A) (a : A) :
  Forall (fun b => f b = false) pre -> f a = true -> List.find f (pre ++ a :: post) = Some a.
Proof.
  induction 1 as [|b pre Hb Hpre IH]; intros Ha; simpl.
  - rewrite Ha. reflexivity.
  - rewrite Hb. apply IH, Ha.
Qed.

Lemma find_app_none {A} (f : A -> bool) (l : list A) :
  Forall (fun b => f b = false) l -> List.find f l = None.
Proof. induction 1 as [|b l Hb Hl IH]; simpl; [reflexivity|]. rewrite Hb. exact IH. Qed.

(** [filter_apps] with a name selects only the first application whose name or
    binary is that name. *)
Theorem filter_apps_selects_first (pre post : list MainRs.App) (a : MainRs.App) (n : string)
    (Hpre : Forall (fun b => MainRs.name b <> n /\ MainRs.bin b <> n) pre)
    (Ha : MainRs.name a = n \/ MainRs.bin a = n) :
  MainCli.filter_apps (pre ++ a :: post) (Some n) = Ok [a].
Proof.
  unfold MainCli.filter_apps. rewrite find_app_first; [reflexivity| |].
  - eapply Forall_impl; [exact Hpre|]. intros b [H1 H2]. simpl.
    apply orb_false_iff. split; apply String.eqb_neq; assumption.
  - apply orb_true_iff. destruct Ha; [left|right]; apply String.eqb_eq; assumption.
Qed.

(** [filter_apps] with a name no application has fails with "App '<name>' not
    found in configuration". *)
Theorem filter_apps_not_found (apps : list MainRs.App) (n : string)
    (Hnone : Forall (fun b => MainRs.name b <> n /\ MainRs.bin b <> n) apps) :
  MainCli.filter_apps apps (Some n)
  = Err (ErrMsg ("App '" ++ n ++ "' not found in configuration")%string).
Proof.
  unfold MainCli.filter_apps. rewrite find_app_none; [reflexivity|].
  eapply Forall_impl; [exact Hnone|]. intros b [H1 H2]. simpl.
  apply orb_false_iff. split; apply String.eqb_neq; assumption.
Qed.


(** [detect_system_info] accepts exactly the five supported pairs; it keeps the
    architecture, maps macos to darwin, and gives both macOS architectures
    the x86_64-apple-darwin suffix; any other pair is an error naming it. *)
Theorem detect_system_info_cases (os arch : string) :
  match MainCli.detect_system_info os arch with
  | Ok si =>
      In (os, arch) supported_platforms /\ MainRs.si_arch si = arch /\
      MainRs.si_os si = (if String.eqb os "macos" then "darwin" else os) /\
      (MainRs.si_os si = "darwin" -> MainRs.suffix si = "x86_64-apple-darwin")
  | Err e =>
      ~ In (os, arch) supported_platforms /\
      e = ErrMsg ("Unsupported platform: " ++ os ++ "-" ++ arch)%string
  | Panic _ => False
  end.
Proof.
  unfold MainCli.detect_system_info, supported_platforms.
  repeat match goal with
  | |- context [String.eqb os ?x] => destruct (String.eqb_spec os x); subst
  | |- context [String.eqb arch ?x] => destruct (String.eqb_spec arch x); subst
  end; simpl.
  all: first
    [ split; [intros H; repeat destruct H as [H|H]; congruence | reflexivity]
    | repeat split; first [intros; discriminate | reflexivity | repeat (first [left; reflexivity | right])] ].
Qed.

Lemma string_app_cons (c : ascii) (x y : string) :
  (String c x ++ y = String c (x ++ y))%string.
Proof. reflexivity. Qed.

Lemma string_app_assoc (x y z : string) : ((x ++ y) ++ z = x ++ (y ++ z))%string.
Proof.
  induction x as [|c x IH]; [reflexivity|]. rewrite !string_app_cons, IH. reflexivity.
Qed.

Lemma starts_with_spec (p s : string) :
  starts_with p s = true <-> exists r, s = (p ++ r)%string.
Proof.
  revert s. induction p as [|c p IH]; intros s; simpl.
  - split; [eauto | reflexivity].
  - destruct s as [|d s].
    + split; [discriminate|]. intros [r Hr]. discriminate.
    + rewrite andb_true_iff, IH, Ascii.eqb_eq. split.
      * intros [-> [r ->]]. eauto.
      * intros [r Hr]. injection Hr as -> ->. eauto.
Qed.

Lemma contains_spec (s p : string) :
  contains s p = true <-> exists l r, s = (l ++ p ++ r)%string.
Proof.
  induction s as [|c s IH]; simpl.
  - rewrite orb_false_r, starts_with_spec. split.
    + intros [r Hr]. exists EmptyString, r. exact Hr.
    + intros (l & r & Hr). destruct l; [eauto|discriminate].
  - rewrite orb_true_iff, starts_with_spec, IH. split.
    + intros [[r Hr]|(l & r & Hr)].
      * exists EmptyString, r. exact Hr.
      * exists (String c l), r. rewrite string_app_cons, <- Hr. reflexivity.
    + intros (l & r & Hr). destruct l as [|d l]; [left; eauto|].
      rewrite string_app_cons in Hr. injection Hr as -> Hr. right. eauto.
Qed.

Lemma contains_app_r (s x y : string) :
  contains s (x ++ y) = true -> contains s y = true.
Proof.
  rewrite !contains_spec. intros (l & r & ->).
  exists (l ++ x)%string, r. rewrite string_app_assoc, string_app_assoc. reflexivity.
Qed.

(** An architecture missing from the alias table does not constrain the match:
    any asset naming an alias of the OS matches. *)
Theorem asset_matcher_arch_unregistered (cur p : Github.Platform) (asset_name oa : string)
    (oas : list string)
    (Ho : Github.os_aliases Github.default_matcher !! Github.os p = Some oas)
    (Ha : Github.arch_aliases Github.default_matcher !! Github.arch p = None)
    (Hin : In oa oas)
    (Hc : contains (to_lowercase asset_name) oa = true) :
  Github.asset_matcher cur asset_name None (Some p) = Ok tt.
Proof.
  unfold Github.asset_matcher, Github.matcher_or_default, Github.platform_or.
  rewrite Ho, Ha.
  destruct (_ && _); [reflexivity|].
  rewrite (existsb_In_true (fun oa => contains (to_lowercase asset_name) oa) oas oa Hin Hc).
  reflexivity.
Qed.

Lemma asset_matcher_arch_unregistered_witness :
  Github.asset_matcher (Github.mkPlatform "linux" "riscv64") "app-linux-x86_64.tar.gz" None
    (Some (Github.mkPlatform "linux" "riscv64")) = Ok tt.
Proof.
  apply (asset_matcher_arch_unregistered _ _ _ "linux" ["linux"]);
    [reflexivity | reflexivity | simpl; auto | reflexivity].
Defined.

(** On windows/x86_64 every asset naming darwin and x86_64 matches, since the
    windows alias "win" occurs in "darwin". *)
Theorem asset_matcher_windows_accepts_darwin (cur : Github.Platform) (asset_name : string)
    (Hd : contains (to_lowercase asset_name) "darwin" = true)
    (Hx : contains (to_lowercase asset_name) "x86_64" = true) :
  Github.asset_matcher cur asset_name None (Some (Github.mkPlatform "windows" "x86_64")) = Ok tt.
Proof.
  assert (Hw : contains (to_lowercase asset_name) "win" = true)
    by exact (contains_app_r _ "dar" "win" Hd).
  unfold Github.asset_matcher, Github.matcher_or_default, Github.platform_or. simpl Github.os.
  simpl Github.arch.
  change (Github.os_aliases Github.default_matcher !! "windows") with
    (Some ["windows"; "win32"; "win"]).
  change (Github.arch_aliases Github.default_matcher !! "x86_64") with
    (Some ["x86_64"; "amd64"]).
  destruct (_ && _); [reflexivity|].
  rewrite (existsb_In_true
             (fun oa => existsb (fun aa => contains (to_lowercase asset_name) oa
                                           && contains (to_lowercase asset_name) aa)
                          ["x86_64"; "amd64"])
             ["windows"; "win32"; "win"] "win"); [reflexivity | simpl; auto |].
  simpl. rewrite Hw, Hx. reflexivity.
Qed.

Lemma asset_matcher_windows_accepts_darwin_witness :
  Github.asset_matcher (Github.mkPlatform "windows" "x86_64") "tool-x86_64-apple-darwin.tar.gz"
    None (Some (Github.mkPlatform "windows" "x86_64")) = Ok tt.
Proof. apply asset_matcher_windows_accepts_darwin; reflexivity. Defined.

(** For a platform with neither OS nor architecture in the alias tables, an
    asset matches exactly when its lower-cased name contains both. *)
Theorem asset_matcher_unregistered_platform (cur p : Github.Platform) (asset_name : string)
    (Ho : Github.os_aliases Github.default_matcher !! Github.os p = None)
    (Ha : Github.arch_aliases Github.default_matcher !! Github.arch p = None) :
  Github.asset_matcher cur asset_name None (Some p) = Ok tt <->
  contains (to_lowercase asset_name) (Github.os p) = true /\
  contains (to_lowercase asset_name) (Github.arch p) = true.
Proof.
  unfold Github.asset_matcher, Github.matcher_or_default, Github.platform_or.
  rewrite Ho, Ha, <- andb_true_iff.
  destruct (_ && _); split; auto; discriminate.
Qed.

Lemma asset_matcher_unregistered_platform_witness :
  Github.asset_matcher (Github.mkPlatform "freebsd" "riscv64") "app-freebsd-riscv64.tar.gz" None
    (Some (Github.mkPlatform "freebsd" "riscv64")) = Ok tt.
Proof.
  apply (proj2 (asset_matcher_unregistered_platform (Github.mkPlatform "freebsd" "riscv64")
                  (Github.mkPlatform "freebsd" "riscv64") "app-freebsd-riscv64.tar.gz"
                  eq_refl eq_refl)).
  split; reflexivity.
Defined.



Lemma np_bind {A B} (c : M A) (f : A -> M B) :
  never_panics c -> (forall a, never_panics (f a)) -> never_panics (c ≫= f).
Proof.
  unfold never_panics. intros Hc Hf s. destruct c as [t [a|e|m]]; mrun.
  - specialize (Hf a s). destruct (f a) as [t2 r]. exact Hf.
  - discriminate.
  - exfalso. exact (Hc m eq_refl).
Qed.

Lemma np_ret {A} (a : A) : never_panics (mret a).
Proof. intros s. discriminate. Qed.
Lemma np_throw {A} (e : error) : never_panics (throw (A:=A) e).
Proof. intros s. discriminate. Qed.
Lemma np_emit (ev : event) : never_panics (emit ev).
Proof. intros s. discriminate. Qed.

Ltac np_solve :=
  repeat match goal with
  | |- never_panics (mbind _ _) => apply np_bind; [|intros ?]
  | |- never_panics (mret _) => apply np_ret
  | |- never_panics (throw _) => apply np_throw
  | |- never_panics (emit _) => apply np_emit
  | |- never_panics (match ?x with _ => _ end) => destruct x
  | |- never_panics (if ?x then _ else _) => destruct x
  end.

Lemma get_latest_version_never_panics (h : MainRs.Host) (repo : string) :
  never_panics (MainRs.get_latest_version h repo).
Proof.
  unfold MainRs.get_latest_version, send, text, MainRs.print. np_solve.
Qed.

Lemma get_app_status_never_panics (h : MainRs.Host) (a : MainRs.App) (si : MainRs.SystemInfo) :
  never_panics (MainRs.get_app_status h a si).
Proof.
  unfold MainRs.get_app_status. np_solve. apply get_latest_version_never_panics.
Qed.

(** Without --stop-on-error, [check_apps] always returns Ok. *)
Theorem check_apps_never_fails_without_stop (h : MainRs.Host) (apps : list MainRs.App)
    (si : MainRs.SystemInfo) :
  snd (MainCli.check_apps h apps si false) = Ok tt.
Proof.
  induction apps as [|a apps IH]; [reflexivity|]. simpl.
  pose proof (get_app_status_never_panics h a si) as Hnp.
  destruct (MainRs.get_app_status h a si) as [t [st|e|s]]; unfold MainCli.try_M; mrun.
  - destruct (MainCli.check_apps h apps si false) as [t2 r]. simpl in *. subst. reflexivity.
  - destruct (MainCli.check_apps h apps si false) as [t2 r]. simpl in *. subst. reflexivity.
  - exfalso. exact (Hnp s eq_refl).
Qed.

(** With --stop-on-error, [check_apps] returns the error of the first
    application whose status check fails, and checks no application after it. *)
Theorem check_apps_stops_at_first_error (h : MainRs.Host) (pre post : list MainRs.App)
    (a : MainRs.App) (si : MainRs.SystemInfo) (e : error)
    (Hpre : Forall (fun b => is_ok (snd (MainRs.get_app_status h b si)) = true) pre)
    (Ha : snd (MainRs.get_app_status h a si) = Err e) :
  exists t, MainCli.check_apps h (pre ++ a :: post) si true
            = (t ++ fst (MainRs.get_app_status h a si), Err e).
Proof.
  induction Hpre as [|b pre Hb Hpre IH].
  - simpl. destruct (MainRs.get_app_status h a si) as [t r]. simpl in Ha. subst r.
    unfold MainCli.try_M. mrun. exists []. rewrite app_nil_r. reflexivity.
  - destruct IH as [t IH]. simpl.
    destruct (MainRs.get_app_status h b si) as [tb [st|e'|s]]; simpl in Hb; try discriminate.
    unfold MainCli.try_M. mrun. rewrite IH.
    exists (tb ++ [Println (MainRs.status_line st)] ++ t).
    rewrite <- !app_assoc. reflexivity.
Qed.

(** Without --stop-on-error, if no installation panics, [install_apps] runs
    every installation in order and returns Ok. *)
Theorem install_apps_without_stop (h : MainRs.Host) (apps : list MainRs.App)
    (si : MainRs.SystemInfo) (dry_run : bool)
    (Hnp : Forall (fun b => never_panics (MainRs.install_app h b si dry_run)) apps) :
  MainCli.install_apps h apps si dry_run false
  = (concat (map (fun b => fst (MainRs.install_app h b si dry_run)) apps), Ok tt).
Proof.
  induction Hnp as [|b apps Hb Hnp IH]; [reflexivity|]. simpl.
  destruct (MainRs.install_app h b si dry_run) as [t [x|e|s]]; unfold MainCli.try_M; mrun;
    try (rewrite IH; reflexivity).
  exfalso. exact (Hb s eq_refl).
Qed.

(** [install_apps] stops at the first installation that panics, or that fails
    under --stop-on-error, and returns its outcome. *)
Theorem install_apps_stops (h : MainRs.Host) (pre post : list MainRs.App) (a : MainRs.App)
    (si : MainRs.SystemInfo) (dry_run stop_on_error : bool)
    (Hpre : Forall (fun b => match snd (MainRs.install_app h b si dry_run) with
                             | Ok _ => True
                             | Err _ => stop_on_error = false
                             | Panic _ => False
                             end) pre)
    (Ha : match snd (MainRs.install_app h a si dry_run) with
          | Ok _ => False
          | Err _ => stop_on_error = true
          | Panic _ => True
          end) :
  exists t, MainCli.install_apps h (pre ++ a :: post) si dry_run stop_on_error
            = (t ++ fst (MainRs.install_app h a si dry_run),
               snd (MainRs.install_app h a si dry_run)).
Proof.
  induction Hpre as [|b pre Hb Hpre IH].
  - simpl. destruct (MainRs.install_app h a si dry_run) as [t [x|e|s]]; simpl in Ha;
      [contradiction| subst stop_on_error |]; unfold MainCli.try_M; mrun;
      exists []; rewrite ?app_nil_r; reflexivity.
  - destruct IH as [t IH]. simpl.
    destruct (MainRs.install_app h b si dry_run) as [tb [x|e'|s]]; simpl in Hb;
      [| subst stop_on_error | contradiction]; unfold MainCli.try_M; mrun; rewrite IH;
      exists (tb ++ t); rewrite <- !app_assoc; reflexivity.
Qed.

(** [install_app] on an application managed by pixi or not needing an
    install only prints its status line. *)
Theorem install_app_nothing_to_do (h : MainRs.Host) (a : MainRs.App) (si : MainRs.SystemInfo)
    (dry_run : bool) (t : list event) (st : MainRs.AppStatus)
    (Hs : MainRs.get_app_status h a si = (t, Ok st))
    (Hn : MainRs.pixi_managed st = true \/ MainRs.needs_install st = false) :
  MainRs.install_app h a si dry_run = (t ++ [Println (MainRs.status_line st)], Ok tt).
Proof.
  unfold MainRs.install_app. rewrite Hs. mrun.
  destruct (MainRs.pixi_managed st) eqn:Hp; mrun; [reflexivity|].
  destruct Hn as [Hn|Hn]; [discriminate|]. rewrite Hn. mrun. reflexivity.
Qed.

Lemma bind_fst {A B} (c : M A) (f : A -> M B) :
  fst (c ≫= f) = fst c ++ match snd c with Ok a => fst (f a) | _ => [] end.
Proof.
  destruct c as [t [a|e|s]]; mrun; rewrite ?app_nil_r; [|reflexivity|reflexivity].
  destruct (f a). reflexivity.
Qed.


Lemma Forall_bind {A B} (P : event -> Prop) (c : M A) (f : A -> M B) :
  Forall P (fst c) -> (forall a, snd c = Ok a -> Forall P (fst (f a))) ->
  Forall P (fst (c ≫= f)).
Proof.
  intros H1 H2. rewrite bind_fst. apply Forall_app. split; [exact H1|].
  destruct (snd c); auto.
Qed.

(** A dry run of [install_app] only prints after the status check, apart from
    what [process_template] does. *)
Theorem install_app_dry_run_effects (h : MainRs.Host) (a : MainRs.App) (si : MainRs.SystemInfo) :
  exists rest, fst (MainRs.install_app h a si true) = fst (MainRs.get_app_status h a si) ++ rest
               /\ Forall (dry_event h a si) rest.
Proof.
  unfold MainRs.install_app. rewrite bind_fst.
  eexists. split; [reflexivity|].
  assert (Ht : forall tmpl v, Forall (dry_event h a si) (fst (MainRs.process_template h tmpl a v si))).
  { intros tmpl v. apply List.Forall_forall. intros ev Hin. right. eauto. }
  destruct (snd (MainRs.get_app_status h a si)) as [st|e|s]; [|constructor|constructor].
  repeat match goal with
  | |- Forall _ (fst (mbind _ _)) => apply Forall_bind; [|intros ? ?]
  | |- Forall _ (fst (MainRs.print _)) => repeat constructor; eauto
  | |- Forall _ (fst (mret _)) => constructor
  | |- Forall _ (fst (throw _)) => constructor
  | |- Forall _ (fst (lift _)) => constructor
  | |- Forall _ (fst (MainRs.unwrap ?o)) => destruct o; constructor
  | |- Forall _ (fst (MainRs.process_template _ _ _ _ _)) => apply Ht
  | |- Forall _ (fst (match ?x with _ => _ end)) => destruct x
  | |- Forall _ (fst (if ?x then _ else _)) => destruct x
  | |- Forall _ (fst (MainRs.preview_installation_steps _ _ _ _ _)) =>
      unfold MainRs.preview_installation_steps
  | |- Forall _ (fst (MainRs.print_app_status _)) => unfold MainRs.print_app_status
  end.
Qed.

(** Any difference between the installed and the released version makes
    [get_app_status] ask for an install (also a downgrade), which
    [install_app] performs as an update to the released version. *)
Theorem get_app_status_any_difference_needs_install (h : MainRs.Host) (a : MainRs.App)
    (si : MainRs.SystemInfo) (v w : string) (t : list event)
    (Hr : MainRs.has_repo a = true)
    (Hp : MainRs.pixi_of h (MainRs.bin a) = false)
    (Hc : MainRs.get_current_version h (MainRs.bin a) = Some v)
    (Hl : MainRs.get_latest_version h (MainRs.get_repo a) = (t, Ok w))
    (Hne : v <> w) :
  MainRs.get_app_status h a si = (t, Ok (MainRs.mkAppStatus a (Some v) (Some w) true false)) /\
  MainRs.status_line (MainRs.mkAppStatus a (Some v) (Some w) true false)
  = ("🆕 " ++ MainRs.name a ++ " v" ++ v ++ " -> v" ++ w ++ " (update available)")%string /\
  exists rest, fst (MainRs.install_app h a si false)
               = t ++ Println ("🔄 Updating " ++ MainRs.name a ++ " v" ++ w)%string :: rest.
Proof.
  assert (Hs : MainRs.get_app_status h a si
               = (t, Ok (MainRs.mkAppStatus a (Some v) (Some w) true false))).
  { unfold MainRs.get_app_status. rewrite Hr, Hp, Hc, Hl. mrun.
    rewrite bool_decide_false by congruence. rewrite app_nil_r. reflexivity. }
  split; [exact Hs|]. split.
  - unfold MainRs.status_line. simpl.
    destruct (String.eqb_spec v w); [contradiction|reflexivity].
  - unfold MainRs.install_app. rewrite bind_fst, Hs.
    cbn [fst snd MainRs.pixi_managed MainRs.needs_install negb MainRs.latest_version
         MainRs.current_version MainRs.unwrap].
    rewrite bind_fst. cbn [fst snd mret M_ret]. rewrite bind_fst.
    cbn [fst snd MainRs.print emit]. eexists. reflexivity.
Qed.

Lemma bind_snd_ok {A B} (c : M A) (f : A -> M B) (b : B) :
  snd (c ≫= f) = Ok b -> exists a, snd c = Ok a /\ snd (f a) = Ok b.
Proof.
  destruct c as [t [a|e|s]]; mrun; try discriminate.
  destruct (f a) as [t2 r] eqn:E. simpl. intros ->. exists a. rewrite E. auto.
Qed.

Lemma send_ok (net : Net) (rq : Request) (r : Response) :
  snd (send net rq) = Ok r -> net rq = Some r.
Proof. unfold send. mrun. destruct (net rq); mrun; congruence. Qed.

(** A version returned by [get_latest_version] is an x.y.z part of the
    tag_name of the latest release of the repository. *)
Theorem get_latest_version_version_of_tag (h : MainRs.Host) (repo v : string)
    (H : snd (MainRs.get_latest_version h repo) = Ok v) :
  exists resp j tag,
    MainRs.net h (mkRequest ("https://api.github.com/repos/" ++ repo ++ "/releases/latest")
                    MainRs.user_agent) = Some resp /\
    is_success (status resp) = true /\
    body_json resp = Some j /\ as_str (jindex j "tag_name") = Some tag /\
    (exists l r, list_ascii_of_string tag = l ++ list_ascii_of_string v ++ r) /\
    RegexSpec.three_part (list_ascii_of_string v).
Proof.
  unfold MainRs.get_latest_version in H.
  apply bind_snd_ok in H as (rl & _ & H).
  apply bind_snd_ok in H as (u & _ & H).
  apply bind_snd_ok in H as (resp & Hresp & H). apply send_ok in Hresp.
  destruct (is_success (status resp)) eqn:Hok; simpl in H; [|discriminate].
  apply bind_snd_ok in H as (txt & _ & H).
  destruct (body_json resp) as [j|] eqn:Hj; [|discriminate].
  destruct (as_str (jindex j "tag_name")) as [tag|] eqn:Htag; [|discriminate].
  destruct (MainRs.extract_version_from_string tag) as [v'|] eqn:Hv; [|discriminate].
  simpl in H. injection H as <-.
  destruct (found_xyz_token tag v' Hv) as (l & r & Hl & H3).
  exists resp, j, tag. repeat split; eauto.
Qed.

Lemma split_once_none (c : ascii) (s : string) :
  ~ In c (list_ascii_of_string s) -> split_once c s = None.
Proof.
  induction s as [|d s IH]; intros Hn; [reflexivity|]. simpl in *.
  destruct (Ascii.eqb_spec c d); [subst; tauto|].
  rewrite IH by tauto. reflexivity.
Qed.

Lemma split_once_app (c : ascii) (o n : string) :
  ~ In c (list_ascii_of_string o) -> split_once c (o ++ String c n) = Some (o, n).
Proof.
  induction o as [|d o IH]; intros Hn; simpl.
  - rewrite Ascii.eqb_refl. reflexivity.
  - simpl in Hn. destruct (Ascii.eqb_spec c d); [subst; tauto|].
    rewrite IH by tauto. reflexivity.
Qed.

(** [fetch_latest_release] rejects a repository without '/' before any request;
    otherwise its first request is for the latest release of owner/name. *)
Theorem fetch_latest_release_request (net : Net) (repo : string) (token : option string) :
  (~ In "/"%char (list_ascii_of_string repo) ->
   Github.fetch_latest_release net repo token = ([], Err (ErrMsg "invalid repo format"))) /\
  (forall owner name, repo = (owner ++ "/" ++ name)%string ->
   ~ In "/"%char (list_ascii_of_string owner) ->
   exists rest, fst (Github.fetch_latest_release net repo token)
     = HttpGet ("https://api.github.com/repos/" ++ owner ++ "/" ++ name ++ "/releases/latest")
       :: rest).
Proof.
  split.
  - intros Hn. unfold Github.fetch_latest_release. rewrite split_once_none by exact Hn.
    reflexivity.
  - intros owner name -> Hn. unfold Github.fetch_latest_release.
    change ("/" ++ name)%string with (String "/"%char name).
    rewrite split_once_app by exact Hn. cbn [fst snd]. rewrite bind_fst.
    unfold send. rewrite bind_fst. eexists. reflexivity.
Qed.

Lemma fetch_latest_release_request_witness :
  Github.fetch_latest_release Inputs.offline_net "invalid" None
  = ([], Err (ErrMsg "invalid repo format")) /\
  exists rest, fst (Github.fetch_latest_release Inputs.offline_net "rust-lang/rust" None)
    = HttpGet "https://api.github.com/repos/rust-lang/rust/releases/latest" :: rest.
Proof.
  split.
  - apply (proj1 (fetch_latest_release_request Inputs.offline_net "invalid" None)).
    simpl. intuition discriminate.
  - apply (proj2 (fetch_latest_release_request Inputs.offline_net "rust-lang/rust" None)
             "rust-lang" "rust"); [reflexivity|]. simpl. intuition discriminate.
Defined.

Section Replace.
Import MainRs.

Lemma substring_length_le (n m : nat) (s : string) :
  (String.length (String.substring n m s) <= String.length s - n)%nat.
Proof.
  revert n m; induction s as [|c s IH]; intros n m; simpl.
  - destruct n, m; simpl; lia.
  - destruct n as [|n].
    + destruct m as [|m]; simpl; [lia|]. specialize (IH 0%nat m). simpl in IH. lia.
    + specialize (IH n m). lia.
Qed.

Lemma replace_fuel_enough (pat rep : string) (Hp : pat <> EmptyString) :
  forall f1 f2 s, (String.length s <= f1)%nat -> (String.length s <= f2)%nat ->
  replace_fuel f1 pat rep s = replace_fuel f2 pat rep s.
Proof.
  induction f1 as [|f1 IH]; intros f2 s H1 H2.
  - destruct s; simpl in H1; [|lia]. destruct f2; reflexivity.
  - destruct s as [|c s]; [destruct f2; reflexivity|].
    destruct f2 as [|f2]; simpl in H2; [lia|]. simpl.
    destruct (starts_with pat (String c s)).
    + f_equal. apply IH.
      * pose proof (substring_length_le (String.length pat) (S (String.length s)) (String c s)).
        destruct pat; [congruence|]. simpl in *; lia.
      * pose proof (substring_length_le (String.length pat) (S (String.length s)) (String c s)).
        destruct pat; [congruence|]. simpl in *; lia.
    + f_equal. apply IH; simpl in H1, H2; lia.
Qed.



Lemma replace_len_cons_skip (p rep : string) (c : ascii) (s : string) :
  c <> "{"%char ->
  replace_len (String "{" p) rep (String c s) = String c (replace_len (String "{" p) rep s).
Proof.
  intros Hc. unfold replace_len. cbn [String.length replace_fuel starts_with].
  destruct (Ascii.eqb_spec "{" c); [congruence|]. reflexivity.
Qed.

Lemma replace_len_app_nobrace (p rep a b : string) :
  nobrace a -> replace_len (String "{" p) rep (a ++ b) = (a ++ replace_len (String "{" p) rep b)%string.
Proof.
  induction a as [|c a IH]; intros Hn; [reflexivity|].
  unfold nobrace in Hn; simpl in Hn.
  rewrite string_app_cons, replace_len_cons_skip by tauto. rewrite IH by (unfold nobrace; tauto).
  reflexivity.
Qed.

Lemma starts_with_app (p b : string) : starts_with p (p ++ b) = true.
Proof.
  induction p as [|c p IH]; [destruct b; reflexivity|].
  rewrite string_app_cons. simpl. rewrite Ascii.eqb_refl. exact IH.
Qed.

Lemma string_length_app (a b : string) :
  String.length (a ++ b) = (String.length a + String.length b)%nat.
Proof. induction a as [|c a IH]; [reflexivity|]. rewrite string_app_cons. simpl. lia. Qed.

Lemma substring_prefix_all (b : string) (m : nat) :
  (String.length b <= m)%nat -> String.substring 0 m b = b.
Proof.
  revert m; induction b as [|c b IH]; intros m H; [destruct m; reflexivity|].
  destruct m as [|m]; simpl in H; [lia|]. simpl. rewrite IH by lia. reflexivity.
Qed.

Lemma substring_app (p b : string) :
  String.substring (String.length p) (String.length (p ++ b)) (p ++ b) = b.
Proof.
  assert (G : forall m, (String.length b <= m)%nat ->
            String.substring (String.length p) m (p ++ b) = b).
  { induction p as [|c p IH]; intros m H.
    - apply substring_prefix_all, H.
    - rewrite string_app_cons. simpl. apply IH, H. }
  apply G. rewrite string_length_app. lia.
Qed.

Lemma replace_len_pat (p rep b : string) :
  replace_len (String "{" p) rep (String "{" p ++ b) = (rep ++ replace_len (String "{" p) rep b)%string.
Proof.
  unfold replace_len. rewrite string_app_cons. cbn [String.length].
  cbn [replace_fuel]. rewrite <- string_app_cons, starts_with_app.
  rewrite substring_app. f_equal. apply replace_fuel_enough; [discriminate| |].
  - simpl. rewrite string_length_app. lia.
  - lia.
Qed.

End Replace.

Lemma str_replace_len (p rep s : string) :
  MainRs.str_replace s (String "{" p) rep = replace_len (String "{" p) rep s.
Proof. reflexivity. Qed.

Lemma nobrace_app (a b : string) : nobrace a -> nobrace b -> nobrace (a ++ b).
Proof.
  unfold nobrace. induction a as [|c a IH]; intros Ha Hb; [exact Hb|].
  rewrite string_app_cons. simpl in *. intros [H|H]; [tauto|]. revert H. apply IH; tauto.
Qed.

Lemma build_download_url_default_eq (a : MainRs.App) (version : string)
    (si : MainRs.SystemInfo)
    (Ht : MainRs.template a = None) (Hb : nobrace (MainRs.bin a)) (Hv : nobrace version) :
  MainRs.build_download_url a version si
  = Ok ("https://github.com/" ++ MainRs.get_repo a ++ "/releases/download/" ++ version
        ++ "/" ++ MainRs.bin a ++ "-v" ++ version ++ "-" ++ MainRs.suffix si
        ++ ".tar.gz")%string.
Proof.
  unfold MainRs.build_download_url, MainRs.get_template. rewrite Ht.
  assert (Hdash : nobrace "-v") by (unfold nobrace; simpl; intuition discriminate).
  assert (Hd : nobrace "-") by (unfold nobrace; simpl; intuition discriminate).
  pose (tail := "-{suffix}.tar.gz"%string).
  assert (E1 : MainRs.str_replace "{bin}-v{version}-{suffix}.tar.gz" "{name}" (MainRs.name a)
               = "{bin}-v{version}-{suffix}.tar.gz") by reflexivity.
  assert (E2 : MainRs.str_replace "{bin}-v{version}-{suffix}.tar.gz" "{bin}" (MainRs.bin a)
               = (MainRs.bin a ++ "-v" ++ "{version}" ++ tail)%string).
  { rewrite str_replace_len.
    change "{bin}-v{version}-{suffix}.tar.gz"%string with ("{bin}" ++ "-v{version}-{suffix}.tar.gz")%string.
    rewrite replace_len_pat. reflexivity. }
  assert (E3 : MainRs.str_replace (MainRs.bin a ++ "-v" ++ "{version}" ++ tail) "{version}" version
               = (MainRs.bin a ++ "-v" ++ version ++ tail)%string).
  { rewrite str_replace_len, replace_len_app_nobrace, replace_len_app_nobrace, replace_len_pat by assumption. reflexivity. }
  assert (Ek : forall p rep, replace_len (String "{" p) rep tail = tail ->
            MainRs.str_replace (MainRs.bin a ++ "-v" ++ version ++ tail) (String "{" p) rep
            = (MainRs.bin a ++ "-v" ++ version ++ tail)%string).
  { intros p rep Hr. rewrite str_replace_len, !replace_len_app_nobrace, Hr by assumption. reflexivity. }
  rewrite E1, E2, E3, Ek, Ek by reflexivity.
  rewrite str_replace_len, !replace_len_app_nobrace by assumption.
  unfold tail. change "-{suffix}.tar.gz"%string with ("-" ++ "{suffix}" ++ ".tar.gz")%string.
  rewrite replace_len_app_nobrace, replace_len_pat by assumption. reflexivity.
Qed.

(** With the default template, the download URL is
    https://github.com/<repo>/releases/download/<version>/<bin>-v<version>-<suffix>.tar.gz,
    when the binary name and the version have no '{'. *)
Theorem build_download_url_default_template (a : MainRs.App) (version : string)
    (si : MainRs.SystemInfo)
    (Ht : MainRs.template a = None) (Hb : nobrace (MainRs.bin a)) (Hv : nobrace version) :
  MainRs.build_download_url a version si
  = Ok ("https://github.com/" ++ MainRs.get_repo a ++ "/releases/download/" ++ version
        ++ "/" ++ MainRs.bin a ++ "-v" ++ version ++ "-" ++ MainRs.suffix si
        ++ ".tar.gz")%string.
Proof. exact (build_download_url_default_eq a version si Ht Hb Hv). Qed.

Lemma build_download_url_default_template_witness :
  MainRs.build_download_url Inputs.repo_app "1.2.3" Inputs.linux_x86_64
  = Ok "https://github.com/bootandy/dust/releases/download/1.2.3/dust-v1.2.3-x86_64-unknown-linux-musl.tar.gz".
Proof.
  apply (build_download_url_default_template Inputs.repo_app "1.2.3" Inputs.linux_x86_64);
    [reflexivity | unfold nobrace; simpl; intuition discriminate
    | unfold nobrace; simpl; intuition discriminate].
Defined.

Section Extracted.
Import MainCli.








End Extracted.


Lemma substring_after (p b : string) (m : nat) :
  (String.length b <= m)%nat -> String.substring (String.length p) m (p ++ b) = b.
Proof.
  induction p as [|c p IH]; intros H.
  - apply substring_prefix_all, H.
  - rewrite string_app_cons. simpl. apply IH, H.
Qed.

Lemma ends_with_app (p suf : string) : MainCli.ends_with suf (p ++ suf) = true.
Proof.
  unfold MainCli.ends_with. rewrite string_length_app.
  replace (String.length p + String.length suf - String.length suf)%nat
    with (String.length p) by lia.
  rewrite substring_after by lia. rewrite String.eqb_refl.
  apply andb_true_intro. split; [apply Nat.leb_le; lia | reflexivity].
Qed.


Lemma ne_bind {A B} (m : string) (c : M A) (f : A -> M B) :
  no_err_msg m c -> (forall a, snd c = Ok a -> no_err_msg m (f a)) -> no_err_msg m (c ≫= f).
Proof.
  unfold no_err_msg. intros Hc Hf. destruct c as [t [a|e|s]]; mrun.
  - specialize (Hf a eq_refl). destruct (f a) as [t2 r]. exact Hf.
  - intros He; injection He as ->; exact (Hc eq_refl).
  - discriminate.
Qed.

Lemma ne_ret {A} (m : string) (a : A) : no_err_msg m (mret a).
Proof. unfold no_err_msg. discriminate. Qed.
Lemma ne_emit (m : string) (ev : event) : no_err_msg m (emit ev).
Proof. unfold no_err_msg. discriminate. Qed.
Lemma ne_throw_lib {A} (m o : string) : no_err_msg m (throw (A:=A) (ErrLib o)).
Proof. unfold no_err_msg. discriminate. Qed.
Lemma ne_throw_msg {A} (m s : string) : s <> m -> no_err_msg m (throw (A:=A) (ErrMsg s)).
Proof. unfold no_err_msg, throw. simpl. congruence. Qed.
Lemma ne_lift_ok {A} (m : string) (a : A) : no_err_msg m (lift (Ok a)).
Proof. unfold no_err_msg. discriminate. Qed.

Ltac ne_solve :=
  repeat match goal with
  | |- no_err_msg _ (mbind _ _) => apply ne_bind; [|intros ? ?]
  | |- no_err_msg _ (mret _) => apply ne_ret
  | |- no_err_msg _ (emit _) => apply ne_emit
  | |- no_err_msg _ (throw (ErrLib _)) => apply ne_throw_lib
  | |- no_err_msg _ (throw (ErrMsg _)) => apply ne_throw_msg; [discriminate]
  | |- no_err_msg _ (match ?x with _ => _ end) => destruct x eqn:?
  | |- no_err_msg _ (if ?x then _ else _) => destruct x eqn:?
  end.


Lemma get_latest_version_not_unsupported (h : MainRs.Host) (repo : string) :
  no_err_msg unsupported_msg (MainRs.get_latest_version h repo).
Proof.
  unfold MainRs.get_latest_version, send, text, MainRs.print, MainRs.rate_limit_exceeded_msg.
  ne_solve.
Qed.

Lemma replace_current_binary_not_unsupported w ok b cur nb :
  no_err_msg unsupported_msg (MainRs.replace_current_binary w ok b cur nb).
Proof. unfold MainRs.replace_current_binary, MainRs.fs_call, MainRs.print. ne_solve. Qed.

Lemma ne_try_M {A} (m : string) (c : M A) : no_err_msg m (MainCli.try_M c).
Proof. unfold no_err_msg, MainCli.try_M. destruct c as [t [a|e|s]]; discriminate. Qed.

Lemma try_M_inr {A} (c : M A) (e : error) :
  snd (MainCli.try_M c) = Ok (inr e) -> snd c = Err e.
Proof. unfold MainCli.try_M. destruct c as [t [a|e'|s]]; simpl; congruence. Qed.

Lemma self_update_url_ext (v : string) (si : MainRs.SystemInfo) (u : string) :
  MainCli.build_self_update_url v si = Ok u ->
  MainCli.ends_with ".tar.gz" u = true \/ MainCli.ends_with ".zip" u = true.
Proof.
  unfold MainCli.build_self_update_url. intros [= <-].
  destruct (MainRs.si_os si =? "windows")%string; [right|left].
  - change ("." ++ "zip")%string with ".zip"%string.
    rewrite <- !string_app_assoc. apply ends_with_app.
  - change ("." ++ "tar.gz")%string with ".tar.gz"%string.
    rewrite <- !string_app_assoc. apply ends_with_app.
Qed.

(** [self_update] never fails with "Unsupported archive format for
    self-update": its URL ends in .zip or .tar.gz. *)
Theorem self_update_archive_always_supported {Version : Type}
    (parse : string -> option Version) (cmp : Version -> Version -> comparison)
    (h : MainRs.Host) (sh : SelfUpdate.SelfHost) (si : MainRs.SystemInfo) (dry_run : bool) :
  snd (SelfUpdate.self_update parse cmp h sh si dry_run)
  <> Err (ErrMsg "Unsupported archive format for self-update").
Proof.
  change (no_err_msg unsupported_msg (SelfUpdate.self_update parse cmp h sh si dry_run)).
  unfold SelfUpdate.self_update, MainRs.print, send.
  ne_solve.
  all: try apply ne_try_M.
  all: try (apply ne_lift_ok || apply replace_current_binary_not_unsupported).
  - match goal with
    | H : snd (lift (MainCli.build_self_update_url ?v ?si)) = Ok ?u |- _ =>
        destruct (self_update_url_ext v si u H) as [E|E]; congruence
    end.
  - match goal with
    | H : snd (MainCli.try_M _) = Ok (inr _) |- _ => apply try_M_inr in H
    end.
    pose proof (get_latest_version_not_unsupported h SelfUpdate.SELF_REPO) as Hg.
    unfold no_err_msg, throw in *. simpl. congruence.
Qed.

Lemma try_M_fst {A} (c : M A) : fst (MainCli.try_M c) = fst c.
Proof. unfold MainCli.try_M. destruct c as [t [a|e|s]]; reflexivity. Qed.


(** A dry run of [self_update] only prints after the version query. *)
Theorem self_update_dry_run_only_prints {Version : Type}
    (parse : string -> option Version) (cmp : Version -> Version -> comparison)
    (h : MainRs.Host) (sh : SelfUpdate.SelfHost) (si : MainRs.SystemInfo) :
  exists rest,
    fst (SelfUpdate.self_update parse cmp h sh si true)
    = Println "🔍 Checking for updates to gh-app-installer..."
      :: fst (MainRs.get_latest_version h SelfUpdate.SELF_REPO) ++ rest
    /\ Forall is_println rest.
Proof.
  unfold SelfUpdate.self_update. rewrite bind_fst. cbn [fst snd MainRs.print emit].
  rewrite bind_fst, try_M_fst. eexists. split; [reflexivity|].
  destruct (snd (MainCli.try_M (MainRs.get_latest_version h SelfUpdate.SELF_REPO)))
    as [r|e|s]; [|constructor|constructor].
  unfold is_println.
  repeat match goal with
  | |- Forall _ (fst (mbind _ _)) => apply Forall_bind; [|intros ? ?]
  | |- Forall _ (fst (MainRs.print _)) => repeat constructor; eauto
  | |- Forall _ (fst (mret _)) => constructor
  | |- Forall _ (fst (throw _)) => constructor
  | |- Forall _ (fst (lift _)) => constructor
  | |- Forall _ (fst (match ?x with _ => _ end)) => destruct x
  | |- Forall _ (fst (if ?x then _ else _)) => destruct x
  end.
Qed.

(** When the latest release is not newer than the running version,
    [self_update] prints one line after the version query and returns Ok. *)
Theorem self_update_not_newer {Version : Type}
    (parse : string -> option Version) (cmp : Version -> Version -> comparison)
    (h : MainRs.Host) (sh : SelfUpdate.SelfHost) (si : MainRs.SystemInfo) (dry_run : bool)
    (t : list event) (w : string) (cur lat : Version)
    (Hl : MainRs.get_latest_version h SelfUpdate.SELF_REPO = (t, Ok w))
    (Hc : parse (SelfUpdate.cargo_pkg_version sh) = Some cur)
    (Hw : parse w = Some lat)
    (Hng : cmp lat cur <> Gt) :
  exists msg,
    SelfUpdate.self_update parse cmp h sh si dry_run
    = (Println "🔍 Checking for updates to gh-app-installer..." :: t ++ [Println msg], Ok tt).
Proof.
  unfold SelfUpdate.self_update. unfold MainCli.try_M at 1. rewrite Hl. mrun. rewrite Hc, Hw. mrun.
  destruct (cmp lat cur); [| |congruence]; mrun; rewrite ?app_nil_r; eexists; reflexivity.
Qed.

(** A version-query error whose text contains "404" is taken by [self_update]
    as "no release": two lines are printed and the result is Ok. *)
Theorem self_update_404_means_no_release {Version : Type}
    (parse : string -> option Version) (cmp : Version -> Version -> comparison)
    (h : MainRs.Host) (sh : SelfUpdate.SelfHost) (si : MainRs.SystemInfo) (dry_run : bool)
    (e : error)
    (He : snd (MainRs.get_latest_version h SelfUpdate.SELF_REPO) = Err e)
    (H404 : contains (SelfUpdate.err_string sh e) "404" = true) :
  SelfUpdate.self_update parse cmp h sh si dry_run
  = (Println "🔍 Checking for updates to gh-app-installer..."
       :: fst (MainRs.get_latest_version h SelfUpdate.SELF_REPO)
       ++ [Println "ℹ️  No releases found on GitHub. This might be a development build.";
           Println ("ℹ️  Current version: v" ++ SelfUpdate.cargo_pkg_version sh)%string],
     Ok tt).
Proof.
  unfold SelfUpdate.self_update, MainCli.try_M at 1.
  destruct (MainRs.get_latest_version h SelfUpdate.SELF_REPO) as [t r]. simpl in He. subst r.
  mrun. rewrite H404. mrun. reflexivity.
Qed.


Lemma self_update_404_means_no_release_witness :
  SelfUpdate.self_update Inputs.core_semver_parse Inputs.core_semver_cmp
    (Inputs.host (Inputs.const_net (mkResponse 404 None None)) Inputs.no_version)
    (Inputs.self_host "0.1.0") Inputs.linux_x86_64 false
  = (Println "🔍 Checking for updates to gh-app-installer..."
       :: fst (MainRs.get_latest_version
                 (Inputs.host (Inputs.const_net (mkResponse 404 None None)) Inputs.no_version)
                 SelfUpdate.SELF_REPO)
       ++ [Println "ℹ️  No releases found on GitHub. This might be a development build.";
           Println "ℹ️  Current version: v0.1.0"],
     Ok tt).
Proof.
  apply (self_update_404_means_no_release _ _ _ (Inputs.self_host "0.1.0") _ false
           (ErrMsg "Failed to fetch latest release: HTTP 404 Not Found")); vm_compute; reflexivity.
Defined.

Lemma self_update_not_newer_witness :
  exists msg,
    SelfUpdate.self_update Inputs.core_semver_parse Inputs.core_semver_cmp
      (Inputs.host (Inputs.release_net "v0.1.0") Inputs.no_version)
      (Inputs.self_host "0.2.0") Inputs.linux_x86_64 false
    = (Println "🔍 Checking for updates to gh-app-installer..."
         :: fst (MainRs.get_latest_version
                   (Inputs.host (Inputs.release_net "v0.1.0") Inputs.no_version)
                   SelfUpdate.SELF_REPO) ++ [Println msg], Ok tt).
Proof.
  apply (self_update_not_newer _ _ _ _ _ _ _ "0.1.0" (0, 2, 0)%Z (0, 1, 0)%Z);
    [vm_compute; reflexivity | reflexivity | reflexivity | discriminate].
Defined.

Lemma send_bind_fst {B} (n : Net) (rq : Request) (f : Response -> M B) :
  exists rest, fst (send n rq ≫= f) = HttpGet (req_url rq) :: rest.
Proof.
  unfold send. rewrite !bind_fst. cbn [fst snd emit]. eexists. reflexivity.
Qed.

Section RateLimit.
Import MainRs.

(** With the rate limit used up, [check_rate_limit] and [get_latest_version]
    fail with the same message after the one rate-limit request. *)
Theorem check_rate_limit_exhausted_same_error (h : Host) (repo txt : string)
    (resp : Response) (j : json)
    (Hn : net h (mkRequest rate_limit_url user_agent) = Some resp)
    (Hs : is_success (status resp) = true)
    (Ht : body_text resp = Some txt)
    (Hj : body_json resp = Some j)
    (Hr : as_u64 (jindex (jindex j "rate") "remaining") = Some 0%Z) :
  let reset := match as_u64 (jindex (jindex j "rate") "reset") with
               | Some n => n | None => 0%Z end in
  GithubRate.check_rate_limit h
  = ([HttpGet rate_limit_url], Err (ErrMsg (rate_limit_exceeded_msg h reset))) /\
  get_latest_version h repo
  = ([HttpGet rate_limit_url], Err (ErrMsg (rate_limit_exceeded_msg h reset))).
Proof.
  split.
  - unfold GithubRate.check_rate_limit, send, text.
    change (mkRequest "https://api.github.com/rate_limit"
              [("user-agent", "gh-app-installer/0.1.0")])
      with (mkRequest rate_limit_url user_agent).
    rewrite Hn. mrun. rewrite Hs. mrun. rewrite Ht. mrun. rewrite Hj, Hr. mrun. reflexivity.
  - unfold get_latest_version, send, text. rewrite Hn. mrun. rewrite Hs. mrun.
    rewrite Ht. mrun. rewrite Hj, Hr. mrun. reflexivity.
Qed.

(** A successful rate-limit answer that is not JSON makes [check_rate_limit]
    fail, while [get_latest_version] goes on to the release request. *)
Theorem check_rate_limit_rejects_non_json (h : Host) (repo txt : string) (resp : Response)
    (Hn : net h (mkRequest rate_limit_url user_agent) = Some resp)
    (Hs : is_success (status resp) = true)
    (Ht : body_text resp = Some txt)
    (Hj : body_json resp = None) :
  GithubRate.check_rate_limit h
  = ([HttpGet rate_limit_url], Err (ErrMsg "Unexpected response from GitHub API")) /\
  exists rest, fst (get_latest_version h repo)
    = HttpGet rate_limit_url
      :: HttpGet ("https://api.github.com/repos/" ++ repo ++ "/releases/latest")%string
      :: rest.
Proof.
  split.
  - unfold GithubRate.check_rate_limit, send, text.
    change (mkRequest "https://api.github.com/rate_limit"
              [("user-agent", "gh-app-installer/0.1.0")])
      with (mkRequest rate_limit_url user_agent).
    rewrite Hn. mrun. rewrite Hs. mrun. rewrite Ht. mrun. rewrite Hj. mrun. reflexivity.
  - assert (Hpre : fst (send (net h) (mkRequest rate_limit_url user_agent)) = [HttpGet rate_limit_url]
                   /\ snd (send (net h) (mkRequest rate_limit_url user_agent)) = Ok resp).
    { unfold send. rewrite Hn. mrun. auto. }
    destruct Hpre as [Hf1 Hs1].
    unfold get_latest_version. rewrite bind_fst, Hf1, Hs1. cbn [app].
    rewrite bind_fst. rewrite Hs. cbn [negb]. unfold text. rewrite Ht, Hj.
    cbn [mbind M_bind mret M_ret fst snd app].
    match goal with
    | |- context [fst (send ?n ?rq ≫= ?f)] =>
        destruct (send_bind_fst n rq f) as [rest Hr]; rewrite Hr
    end.
    eexists. reflexivity.
Qed.

End RateLimit.

Lemma check_rate_limit_exhausted_same_error_witness :
  let reset := 1700003600%Z in
  GithubRate.check_rate_limit (Inputs.host Inputs.rate_limited_net Inputs.no_version)
  = ([HttpGet MainRs.rate_limit_url],
     Err (ErrMsg (MainRs.rate_limit_exceeded_msg
                    (Inputs.host Inputs.rate_limited_net Inputs.no_version) reset))) /\
  MainRs.get_latest_version (Inputs.host Inputs.rate_limited_net Inputs.no_version) "bootandy/dust"
  = ([HttpGet MainRs.rate_limit_url],
     Err (ErrMsg (MainRs.rate_limit_exceeded_msg
                    (Inputs.host Inputs.rate_limited_net Inputs.no_version) reset))).
Proof.
  exact (check_rate_limit_exhausted_same_error
           (Inputs.host Inputs.rate_limited_net Inputs.no_version) "bootandy/dust"
           "{rate: {remaining: 0, reset: 1700003600}}"
           (mkResponse 200 (Some "{rate: {remaining: 0, reset: 1700003600}}")
              (Some (JObj [("rate", JObj [("remaining", JNum 0); ("reset", JNum 1700003600)])])))
           (JObj [("rate", JObj [("remaining", JNum 0); ("reset", JNum 1700003600)])])
           eq_refl eq_refl eq_refl eq_refl eq_refl).
Defined.

Lemma check_rate_limit_rejects_non_json_witness :
  GithubRate.check_rate_limit
    (Inputs.host (Inputs.const_net (mkResponse 200 (Some "<html>") None)) Inputs.no_version)
  = ([HttpGet MainRs.rate_limit_url], Err (ErrMsg "Unexpected response from GitHub API")) /\
  exists rest, fst (MainRs.get_latest_version
                      (Inputs.host (Inputs.const_net (mkResponse 200 (Some "<html>") None))
                         Inputs.no_version) "bootandy/dust")
    = HttpGet MainRs.rate_limit_url
      :: HttpGet "https://api.github.com/repos/bootandy/dust/releases/latest" :: rest.
Proof.
  exact (check_rate_limit_rejects_non_json
           (Inputs.host (Inputs.const_net (mkResponse 200 (Some "<html>") None)) Inputs.no_version)
           "bootandy/dust" "<html>" (mkResponse 200 (Some "<html>") None)
           eq_refl eq_refl eq_refl eq_refl).
Defined.

Section CurrentVersion.
Import AppVersion.


Lemma version_without_args_spec (run : Runner) (bin_name : string) (debug : bool) :
  (debug = false -> fst (version_without_args run bin_name debug) = []) /\
  exists r, snd (version_without_args run bin_name debug) = Ok r /\
            forall v, r = Some v -> version_from run bin_name [] v.
Proof.
  unfold version_without_args, version_from, debug_print.
  destruct (run bin_name []) as [o|] eqn:Hr.
  - destruct (AppRs.extract_version_from_string (stdout o)) as [v|] eqn:Hs.
    + split; [intros ->; reflexivity|].
      exists (Some v). destruct debug; mrun; (split; [reflexivity|]);
        intros w [= <-]; exists o; auto.
    + destruct (AppRs.extract_version_from_string (stderr o)) as [v|] eqn:He.
      * split; [intros ->; reflexivity|].
        exists (Some v). destruct debug; mrun; (split; [reflexivity|]);
          intros w [= <-]; exists o; auto.
      * split; [intros ->; reflexivity|].
        exists None. destruct debug; mrun; (split; [reflexivity|]); discriminate.
  - split; [intros ->; reflexivity|].
    exists None. destruct debug; mrun; (split; [reflexivity|]); discriminate.
Qed.

Lemma try_flags_spec (run : Runner) (bin_name : string) (debug : bool) (flags : list string) :
  (debug = false -> fst (try_flags run bin_name debug flags) = []) /\
  exists r, snd (try_flags run bin_name debug flags) = Ok r /\
            forall v, r = Some v ->
              exists args, In args (map (fun f => [f]) flags ++ [[]]) /\
                           version_from run bin_name args v.
Proof.
  induction flags as [|flag rest IH]; simpl.
  - destruct (version_without_args_spec run bin_name debug) as [H1 (r & H2 & H3)].
    split; [exact H1|]. exists r. split; [exact H2|].
    intros v Hv. exists []. split; [left; reflexivity | apply H3, Hv].
  - destruct IH as [IH1 (r & IH2 & IH3)].
    assert (Hrest : (debug = false -> fst (try_flags run bin_name debug rest) = []) /\
                    exists r, snd (try_flags run bin_name debug rest) = Ok r /\
                      forall v, r = Some v -> exists args,
                        In args ([flag] :: map (fun f => [f]) rest ++ [[]]) /\
                        version_from run bin_name args v).
    { split; [exact IH1|]. exists r. split; [exact IH2|].
      intros v Hv. destruct (IH3 v Hv) as (args & Hin & Hf). exists args. split; [right; exact Hin|exact Hf]. }
    destruct (run bin_name [flag]) as [o|] eqn:Hr; [|exact Hrest].
    destruct (success o); [|exact Hrest].
    unfold debug_print.
    destruct (AppRs.extract_version_from_string (stdout o)) as [v|] eqn:Hs.
    + split; [intros ->; reflexivity|]. exists (Some v).
      destruct debug; mrun; (split; [reflexivity|]); intros w [= <-];
        exists [flag]; (split; [left; reflexivity|]); exists o; auto.
    + destruct (AppRs.extract_version_from_string (stderr o)) as [v|] eqn:He; [|exact Hrest].
      split; [intros ->; reflexivity|]. exists (Some v).
      destruct debug; mrun; (split; [reflexivity|]); intros w [= <-];
        exists [flag]; (split; [left; reflexivity|]); exists o; auto.
Qed.

End CurrentVersion.

(** [get_current_version_with_debug] never fails and prints nothing without
    debug; a version it returns is found in the output of one of its runs. *)
Theorem get_current_version_with_debug_sound (run : AppVersion.Runner) (bin_name : string)
    (debug : bool) :
  (debug = false -> fst (AppVersion.get_current_version_with_debug run bin_name debug) = []) /\
  exists r, snd (AppVersion.get_current_version_with_debug run bin_name debug) = Ok r /\
    forall v, r = Some v ->
      exists args, In args [["--version"]; ["-V"]; ["-v"]; ["version"]; []] /\
        exists o, run bin_name args = Some o /\
          (AppRs.extract_version_from_string (AppVersion.stdout o) = Some v \/
           AppRs.extract_version_from_string (AppVersion.stderr o) = Some v).
Proof. exact (try_flags_spec run bin_name debug AppVersion.version_flags). Qed.



Lemma filter_apps_selects_first_witness :
  MainCli.filter_apps [Inputs.bare_app; Inputs.repo_app; Inputs.update_only_app] (Some "dust")
  = Ok [Inputs.repo_app].
Proof.
  apply (filter_apps_selects_first [Inputs.bare_app] [Inputs.update_only_app] Inputs.repo_app "dust").
  - repeat constructor; discriminate.
  - left. reflexivity.
Defined.

Lemma filter_apps_not_found_witness :
  MainCli.filter_apps [Inputs.bare_app; Inputs.repo_app] (Some "rg")
  = Err (ErrMsg "App 'rg' not found in configuration").
Proof.
  apply (filter_apps_not_found [Inputs.bare_app; Inputs.repo_app] "rg").
  repeat constructor; discriminate.
Defined.

Lemma check_apps_stops_at_first_error_witness :
  exists t, MainCli.check_apps (Inputs.host Inputs.offline_net Inputs.no_version)
              ([] ++ Inputs.repo_app :: [Inputs.bare_app]) Inputs.linux_x86_64 true
            = (t ++ fst (MainRs.get_app_status (Inputs.host Inputs.offline_net Inputs.no_version)
                          Inputs.repo_app Inputs.linux_x86_64), Err (ErrLib "reqwest::send")).
Proof.
  apply (check_apps_stops_at_first_error _ [] [Inputs.bare_app] Inputs.repo_app _
           (ErrLib "reqwest::send")).
  - constructor.
  - vm_compute. reflexivity.
Defined.

Lemma install_apps_without_stop_witness :
  MainCli.install_apps (Inputs.host Inputs.offline_net Inputs.no_version)
    [Inputs.repo_app; Inputs.bare_app] Inputs.linux_x86_64 false false
  = (concat (map (fun b => fst (MainRs.install_app (Inputs.host Inputs.offline_net Inputs.no_version)
                                  b Inputs.linux_x86_64 false))
                 [Inputs.repo_app; Inputs.bare_app]), Ok tt).
Proof.
  apply install_apps_without_stop.
  repeat constructor; intros s; vm_compute; discriminate.
Defined.

Lemma install_apps_stops_witness :
  exists t, MainCli.install_apps (Inputs.host Inputs.offline_net Inputs.no_version)
              ([Inputs.repo_app] ++ Inputs.update_only_app :: [Inputs.bare_app])
              Inputs.linux_x86_64 false false
            = (t ++ fst (MainRs.install_app (Inputs.host Inputs.offline_net Inputs.no_version)
                           Inputs.update_only_app Inputs.linux_x86_64 false),
               snd (MainRs.install_app (Inputs.host Inputs.offline_net Inputs.no_version)
                      Inputs.update_only_app Inputs.linux_x86_64 false)).
Proof.
  apply install_apps_stops.
  - repeat constructor; vm_compute; reflexivity.
  - vm_compute. exact I.
Defined.

Lemma install_app_nothing_to_do_witness :
  MainRs.install_app (Inputs.pixi_host (Inputs.release_net "v1.0.0") (fun _ => Some "dust 1.0.0"))
    Inputs.repo_app Inputs.linux_x86_64 false
  = (fst (MainRs.get_app_status
            (Inputs.pixi_host (Inputs.release_net "v1.0.0") (fun _ => Some "dust 1.0.0"))
            Inputs.repo_app Inputs.linux_x86_64)
     ++ [Println (MainRs.status_line
                   (MainRs.mkAppStatus Inputs.repo_app (Some "1.0.0") (Some "1.0.0") false true))],
     Ok tt).
Proof.
  apply install_app_nothing_to_do.
  - vm_compute. reflexivity.
  - left. reflexivity.
Defined.

Lemma get_app_status_any_difference_needs_install_witness :
  MainRs.get_app_status (Inputs.host (Inputs.release_net "v1.0.0") (fun _ => Some "dust 2.0.0"))
    Inputs.repo_app Inputs.linux_x86_64
  = ([HttpGet MainRs.rate_limit_url;
      HttpGet "https://api.github.com/repos/bootandy/dust/releases/latest"],
     Ok (MainRs.mkAppStatus Inputs.repo_app (Some "2.0.0") (Some "1.0.0") true false)) /\
  MainRs.status_line (MainRs.mkAppStatus Inputs.repo_app (Some "2.0.0") (Some "1.0.0") true false)
  = "🆕 dust v2.0.0 -> v1.0.0 (update available)" /\
  exists rest, fst (MainRs.install_app
                      (Inputs.host (Inputs.release_net "v1.0.0") (fun _ => Some "dust 2.0.0"))
                      Inputs.repo_app Inputs.linux_x86_64 false)
               = [HttpGet MainRs.rate_limit_url;
                  HttpGet "https://api.github.com/repos/bootandy/dust/releases/latest"]
                 ++ Println "🔄 Updating dust v1.0.0" :: rest.
Proof.
  apply (get_app_status_any_difference_needs_install _ Inputs.repo_app _ "2.0.0" "1.0.0").
  - reflexivity.
  - reflexivity.
  - vm_compute. reflexivity.
  - vm_compute. reflexivity.
  - discriminate.
Defined.

Lemma get_latest_version_version_of_tag_witness :
  exists resp j tag,
    MainRs.net (Inputs.host (Inputs.release_net "v1.2.3-beta") Inputs.no_version)
      (mkRequest ("https://api.github.com/repos/" ++ "bootandy/dust" ++ "/releases/latest")
         MainRs.user_agent) = Some resp /\
    is_success (status resp) = true /\
    body_json resp = Some j /\
    as_str (jindex j "tag_name") = Some tag /\
    (exists l r, list_ascii_of_string tag = l ++ list_ascii_of_string "1.2.3" ++ r) /\
    RegexSpec.three_part (list_ascii_of_string "1.2.3").
Proof.
  apply (get_latest_version_version_of_tag
           (Inputs.host (Inputs.release_net "v1.2.3-beta") Inputs.no_version) "bootandy/dust").
  vm_compute. reflexivity.
Defined.


